(** * vscode-drawio: the session model, the custom drawio bridge and the
      configuration layer, embedded in Rocq.

    The development follows the three TypeScript sources:
    - [features/LiveshareFeature/SessionModel.ts]  (module [SessionModel]),
    - [DrawioInstance/CustomDrawioInstance.ts]     (module [CustomDrawioInstance]),
    - the configuration file with the classes [Config] and [DiagramConfig]
      (modules [Config] and [DiagramConfig]).

    JavaScript values are untyped at run time, and two of the properties
    studied here (the JSON based comparison of [SessionModel.apply] and the
    dispatch on [evt.event]) depend on that run-time shape, so plain data is
    represented by a small universe of JavaScript values in which an object
    is the ordered list of its own properties. *)

From Stdlib Require Import Ascii String ZArith.
From Stdlib.Strings Require Import Byte.
From stdpp Require Import base option list gmap strings pretty.

Local Open Scope string_scope.

(** ** JavaScript values and built-ins *)

Module Js.

(** What the engine's numbers have to provide.  Numbers are IEEE doubles in
    the engine; nothing below depends on their arithmetic, only on the three
    conversions used by the code ([JSON.stringify], [JSON.parse] and the
    truthiness test of [||]), so the type of numbers is left abstract.
    Equality of [number] is the key equality of a [Map] (SameValueZero). *)
Class JsNumber (number : Type) := {
  number_eq_dec :: EqDecision number;
  number_countable :: Countable number;
  (** JSON text of a number: [Number::toString] when finite, [null] otherwise *)
  Number_toJSON : number -> string;
  (** the number denoted by a JSON number token *)
  Number_ofLiteral : string -> number;
  (** [ToBoolean]: false for zero and NaN *)
  Number_toBoolean : number -> bool;
}.

(** Integers printed in decimal: the instance used to run the definitions on
    integer peer ids.  Of a number token only the integer digits are read. *)
Definition Z_ofLiteral (tok : string) : Z :=
  let fix digits (acc : Z) (s : string) : Z :=
    match s with
    | EmptyString => acc
    | String c r =>
        let d := (Z.of_N (N_of_ascii c) - 48)%Z in
        if (0 <=? d)%Z && (d <=? 9)%Z then digits (10 * acc + d)%Z r else acc
    end in
  match tok with
  | String "-"%char r => (- digits 0%Z r)%Z
  | _ => digits 0%Z tok
  end.

#[export] Instance Z_JsNumber : JsNumber Z := {
  Number_toJSON := pretty;
  Number_ofLiteral := Z_ofLiteral;
  Number_toBoolean z := negb (z =? 0)%Z;
}.

(** A thrown value: [new Error(message)], or one of the engine's own errors. *)
Inductive Thrown :=
| Error (message : string)
| SyntaxError
| TypeError.

(** Outcome of a call that may throw, or of a promise that may reject. *)
Inductive Completion (A : Type) :=
| Normal (a : A)
| Throw (e : Thrown).
Arguments Normal {A} a.
Arguments Throw {A} e.

#[export] Instance Completion_ret : MRet Completion := @Normal.
#[export] Instance Completion_bind : MBind Completion := fun A B k c =>
  match c with
  | Normal a => k a
  | Throw e => Throw e
  end.

Section Values.
Context {number : Type}.

(** Plain JavaScript data.  An object is the list of its own enumerable
    properties in property order. *)
Unset Elimination Schemes.
Inductive JsValue :=
| JUndefined
| JNull
| JBoolean (b : bool)
| JNumber (n : number)
| JString (s : string)
| JArray (elements : list JsValue)
| JObject (properties : list (string * JsValue)).
Set Elimination Schemes.

Definition JsObject := list (string * JsValue).

(** [o[key]]: the value of the property, [undefined] when there is none. *)
Fixpoint getProp (o : JsObject) (key : string) : JsValue :=
  match o with
  | [] => JUndefined
  | (k, v) :: r => if String.eqb k key then v else getProp r key
  end.

(** [o[key] = v]: overwrite in place, or add as the last property. *)
Fixpoint setProp (o : JsObject) (key : string) (v : JsValue) : JsObject :=
  match o with
  | [] => [(key, v)]
  | (k, w) :: r => if String.eqb k key then (k, v) :: r else (k, w) :: setProp r key v
  end.

(** [v === "lit"] *)
Definition isString (v : JsValue) (lit : string) : bool :=
  match v with
  | JString s => String.eqb s lit
  | _ => false
  end.

Inductive JsType := TUndefined | TObject | TBoolean | TNumber | TString.

Definition typeof (v : JsValue) : JsType :=
  match v with
  | JUndefined => TUndefined
  | JNull | JArray _ | JObject _ => TObject
  | JBoolean _ => TBoolean
  | JNumber _ => TNumber
  | JString _ => TString
  end.

(** Equality of content, following the words of the specification: two
    values are semantically identical when they have equal field contents.
    [keys] says how the property lists of two objects may differ: with
    [Permutation] the order in which the keys were produced is ignored, with
    [eq] the keys have to come in the same order. *)
Unset Elimination Schemes.
Inductive sameContent (keys : relation (list (string * JsValue)))
    : JsValue -> JsValue -> Prop :=
| same_value v : sameContent keys v v
| same_array l1 l2 :
    Forall2 (sameContent keys) l1 l2 ->
    sameContent keys (JArray l1) (JArray l2)
| same_object ps ps' qs :
    keys ps ps' ->
    Forall2 (fun p q => p.1 = q.1 /\ sameContent keys p.2 q.2) ps' qs ->
    sameContent keys (JObject ps) (JObject qs).
Set Elimination Schemes.

End Values.
Arguments JsValue : clear implicits.
Arguments JsObject : clear implicits.

(** *** [JSON.stringify] *)

Definition dquote : ascii := "034"%char.
Definition backslash : ascii := "092"%char.

Definition hexDigit (n : N) : ascii :=
  ascii_of_N (if (n <? 10)%N then 48 + n else 87 + n)%N.

(** The text of one character inside a JSON string.  Strings are kept as
    their UTF-8 bytes, so every byte above 0x1F other than the quote and the
    backslash is copied. *)
Definition quoteChar (c : ascii) : string :=
  let n := N_of_ascii c in
  if Ascii.eqb c dquote then String backslash (String dquote EmptyString)
  else if Ascii.eqb c backslash then String backslash (String backslash EmptyString)
  else if (n =? 8)%N then String backslash "b"
  else if (n =? 9)%N then String backslash "t"
  else if (n =? 10)%N then String backslash "n"
  else if (n =? 12)%N then String backslash "f"
  else if (n =? 13)%N then String backslash "r"
  else if (n <? 32)%N then
    String backslash
      (String "u" (String "0" (String "0"
        (String (hexDigit (n / 16)) (String (hexDigit (n mod 16)) EmptyString)))))
  else String c EmptyString.

(** [QuoteJSONString] without the surrounding quotes. *)
Fixpoint quoteChars (s : string) : string :=
  match s with
  | EmptyString => EmptyString
  | String c r => quoteChar c ++ quoteChars r
  end.

Definition QuoteJSONString (s : string) : string :=
  String dquote (quoteChars s ++ String dquote EmptyString).

Definition joinComma (parts : list string) : string := String.concat "," parts.

(** The members of an object: a property whose value has no JSON text is
    left out. *)
Definition serializeMembers {number} (serialize : JsValue number -> option string)
    : JsObject number -> list string :=
  fix members ps :=
    match ps with
    | [] => []
    | (k, w) :: r =>
        match serialize w with
        | Some t => (QuoteJSONString k ++ ":" ++ t) :: members r
        | None => members r
        end
    end.

Section Stringify.
Context `{JsNumber number}.

(** [SerializeJSONProperty]: [None] stands for the result [undefined]. *)
Fixpoint SerializeJSONProperty (v : JsValue number) : option string :=
  match v with
  | JUndefined => None
  | JNull => Some "null"
  | JBoolean b => Some (if b then "true" else "false")
  | JNumber n => Some (Number_toJSON n)
  | JString s => Some (QuoteJSONString s)
  | JArray l =>
      let element e := default "null" (SerializeJSONProperty e) in
      Some ("[" ++ joinComma (List.map element l) ++ "]")
  | JObject ps =>
      Some ("{" ++ joinComma (serializeMembers SerializeJSONProperty ps) ++ "}")
  end.

(** [JSON.stringify(v)] *)
Definition JSON_stringify (v : JsValue number) : option string :=
  SerializeJSONProperty v.

End Stringify.

(** *** [JSON.parse] *)

Definition isWhitespace (c : ascii) : bool :=
  let n := N_of_ascii c in
  ((n =? 9) || (n =? 10) || (n =? 13) || (n =? 32))%N.

Fixpoint skipWhitespace (s : string) : string :=
  match s with
  | EmptyString => EmptyString
  | String c r => if isWhitespace c then skipWhitespace r else s
  end.

Definition isDigit (c : ascii) : bool :=
  let n := N_of_ascii c in ((48 <=? n) && (n <=? 57))%N.

Definition hexValue (c : ascii) : option N :=
  let n := N_of_ascii c in
  if isDigit c then Some (n - 48)%N
  else if ((97 <=? n) && (n <=? 102))%N then Some (n - 87)%N
  else if ((65 <=? n) && (n <=? 70))%N then Some (n - 55)%N
  else None.

(** The bytes of the code unit written [\uXXXX].  Each escape is decoded on
    its own: the two escapes of a surrogate pair are not joined. *)
Definition utf8OfCodeUnit (u : N) : string :=
  if (u <? 128)%N then String (ascii_of_N u) EmptyString
  else if (u <? 2048)%N then
    String (ascii_of_N (192 + u / 64)) (String (ascii_of_N (128 + u mod 64)) EmptyString)
  else
    String (ascii_of_N (224 + u / 4096))
      (String (ascii_of_N (128 + (u / 64) mod 64))
        (String (ascii_of_N (128 + u mod 64)) EmptyString)).

Definition simpleEscape (e : ascii) : option ascii :=
  if Ascii.eqb e dquote then Some dquote
  else if Ascii.eqb e backslash then Some backslash
  else if Ascii.eqb e "/" then Some "/"%char
  else if Ascii.eqb e "b" then Some "008"%char
  else if Ascii.eqb e "f" then Some "012"%char
  else if Ascii.eqb e "n" then Some "010"%char
  else if Ascii.eqb e "r" then Some "013"%char
  else if Ascii.eqb e "t" then Some "009"%char
  else None.

(** The characters of a string token after its opening quote: the string
    denoted, and the text after the closing quote. *)
Fixpoint parseStringChars (s : string) : option (string * string) :=
  match s with
  | EmptyString => None
  | String c r =>
      if Ascii.eqb c dquote then Some (EmptyString, r)
      else if Ascii.eqb c backslash then
        match r with
        | EmptyString => None
        | String e r1 =>
            match simpleEscape e with
            | Some ch => '(t, rest) ← parseStringChars r1; Some (String ch t, rest)
            | None =>
                if Ascii.eqb e "u" then
                  match r1 with
                  | String h1 (String h2 (String h3 (String h4 r2))) =>
                      d1 ← hexValue h1; d2 ← hexValue h2;
                      d3 ← hexValue h3; d4 ← hexValue h4;
                      '(t, rest) ← parseStringChars r2;
                      Some (utf8OfCodeUnit (4096 * d1 + 256 * d2 + 16 * d3 + d4)%N ++ t, rest)
                  | _ => None
                  end
                else None
            end
        end
      else if (N_of_ascii c <? 32)%N then None
      else '(t, rest) ← parseStringChars r; Some (String c t, rest)
  end.

Fixpoint spanDigits (s : string) : string * string :=
  match s with
  | EmptyString => (EmptyString, EmptyString)
  | String c r =>
      if isDigit c then let '(d, t) := spanDigits r in (String c d, t)
      else (EmptyString, s)
  end.

Definition isEmpty (s : string) : bool :=
  match s with EmptyString => true | _ => false end.

(** A number token: [-? int frac? exp?]. *)
Definition lexNumber (s : string) : option (string * string) :=
  let '(sign, s1) :=
    match s with
    | String "-"%char r => ("-", r)
    | _ => (EmptyString, s)
    end in
  '(int, s2) ←
    match s1 with
    | String c r =>
        if Ascii.eqb c "0" then Some ("0", r)
        else if isDigit c then Some (spanDigits s1)
        else None
    | EmptyString => None
    end;
  '(frac, s3) ←
    match s2 with
    | String "."%char r =>
        let '(d, t) := spanDigits r in
        if isEmpty d then None else Some (String "." d, t)
    | _ => Some (EmptyString, s2)
    end;
  '(exp, s4) ←
    match s3 with
    | String e r =>
        if Ascii.eqb e "e" || Ascii.eqb e "E" then
          let '(sg, r1) :=
            match r with
            | String "+"%char t => ("+", t)
            | String "-"%char t => ("-", t)
            | _ => (EmptyString, r)
            end in
          let '(d, t) := spanDigits r1 in
          if isEmpty d then None else Some (String e (sg ++ d), t)
        else Some (EmptyString, s3)
    | EmptyString => Some (EmptyString, s3)
    end;
  Some (sign ++ int ++ frac ++ exp, s4).

Fixpoint stripPrefix (p s : string) : option string :=
  match p, s with
  | EmptyString, _ => Some s
  | String a p', String b s' => if Ascii.eqb a b then stripPrefix p' s' else None
  | String _ _, EmptyString => None
  end.

Section Parse.
Context `{JsNumber number}.

(** The members of an object after its opening brace, up to and including
    the closing brace.  A repeated key overwrites the earlier value. *)
Fixpoint parseMembers (value : string -> option (JsValue number * string)) (fuel : nat)
    (acc : JsObject number) (s : string) : option (JsObject number * string) :=
  match fuel with
  | 0 => None
  | S fuel =>
      match skipWhitespace s with
      | String c r =>
          if Ascii.eqb c dquote then
            '(key, r1) ← parseStringChars r;
            match skipWhitespace r1 with
            | String ":"%char r2 =>
                '(v, r3) ← value r2;
                let acc := setProp acc key v in
                match skipWhitespace r3 with
                | String ","%char r4 => parseMembers value fuel acc r4
                | String "}"%char r4 => Some (acc, r4)
                | _ => None
                end
            | _ => None
            end
          else None
      | EmptyString => None
      end
  end.

(** The elements of an array after its opening bracket, up to and including
    the closing bracket. *)
Fixpoint parseElements (value : string -> option (JsValue number * string)) (fuel : nat)
    (acc : list (JsValue number)) (s : string) : option (list (JsValue number) * string) :=
  match fuel with
  | 0 => None
  | S fuel =>
      '(v, r) ← value s;
      let acc := (acc ++ [v])%list in
      match skipWhitespace r with
      | String ","%char r1 => parseElements value fuel acc r1
      | String "]"%char r1 => Some (acc, r1)
      | _ => None
      end
  end.

Fixpoint parseValue (fuel : nat) (s : string) : option (JsValue number * string) :=
  match fuel with
  | 0 => None
  | S fuel =>
      match skipWhitespace s with
      | EmptyString => None
      | String c r as t =>
          if Ascii.eqb c dquote then
            '(str, r1) ← parseStringChars r; Some (JString str, r1)
          else if Ascii.eqb c "{" then
            match skipWhitespace r with
            | String "}"%char r1 => Some (JObject [], r1)
            | _ => '(ps, r1) ← parseMembers (parseValue fuel) fuel [] r; Some (JObject ps, r1)
            end
          else if Ascii.eqb c "[" then
            match skipWhitespace r with
            | String "]"%char r1 => Some (JArray [], r1)
            | _ => '(es, r1) ← parseElements (parseValue fuel) fuel [] r; Some (JArray es, r1)
            end
          else if Ascii.eqb c "t" then r1 ← stripPrefix "true" t; Some (JBoolean true, r1)
          else if Ascii.eqb c "f" then r1 ← stripPrefix "false" t; Some (JBoolean false, r1)
          else if Ascii.eqb c "n" then r1 ← stripPrefix "null" t; Some (JNull, r1)
          else '(tok, r1) ← lexNumber t; Some (JNumber (Number_ofLiteral tok), r1)
      end
  end.

(** [JSON.parse(text)].  Every nested value and every member uses up at
    least one character, so the length of the text bounds the recursion. *)
Definition JSON_parse (text : string) : Completion (JsValue number) :=
  match parseValue (S (String.length text)) text with
  | Some (v, rest) =>
      if isEmpty (skipWhitespace rest) then Normal v else Throw SyntaxError
  | None => Throw SyntaxError
  end.

End Parse.

(** The JSON text of a member whose value is a string, and the property
    that parsing this text adds to the object under construction. *)
Definition memberText (kv : string * string) : string :=
  QuoteJSONString kv.1 ++ ":" ++ QuoteJSONString kv.2.

Definition addMember {number} (acc : JsObject number) (kv : string * string)
    : JsObject number :=
  setProp acc kv.1 (JString kv.2).

(** *** [Buffer] and its [base64] encoding *)

Definition Buffer := list byte.

(** [Buffer.from(s, 'utf-8')] and [buf.toString('utf-8')]: strings are
    already kept as their UTF-8 bytes. *)
Definition Buffer_from_utf8 (s : string) : Buffer := list_byte_of_string s.
Definition Buffer_toString_utf8 (b : Buffer) : string := string_of_list_byte b.

(** Six bits, the most significant first. *)
Definition Sextet : Type := bool * bool * bool * bool * bool * bool.

Definition sextetIndex (s : Sextet) : N :=
  let '(b5, b4, b3, b2, b1, b0) := s in
  (32 * N.b2n b5 + 16 * N.b2n b4 + 8 * N.b2n b3 + 4 * N.b2n b2 + 2 * N.b2n b1 + N.b2n b0)%N.

Definition base64Char (s : Sextet) : ascii :=
  let n := sextetIndex s in
  if (n <? 26)%N then ascii_of_N (65 + n)
  else if (n <? 52)%N then ascii_of_N (71 + n)
  else if (n <? 62)%N then ascii_of_N (n - 4)
  else if (n =? 62)%N then "+"%char
  else "/"%char.

(** Node's [unbase64]: both the standard and the URL-safe alphabet. *)
Definition unbase64 (c : ascii) : option Sextet :=
  let n := N_of_ascii c in
  i ← (if ((65 <=? n) && (n <=? 90))%N then Some (n - 65)%N
       else if ((97 <=? n) && (n <=? 122))%N then Some (n - 71)%N
       else if ((48 <=? n) && (n <=? 57))%N then Some (n + 4)%N
       else if ((n =? 43) || (n =? 45))%N then Some 62%N
       else if ((n =? 47) || (n =? 95))%N then Some 63%N
       else None);
  Some (N.testbit i 5, N.testbit i 4, N.testbit i 3,
        N.testbit i 2, N.testbit i 1, N.testbit i 0).

(** [buf.toString('base64')] *)
Fixpoint base64Encode (bs : Buffer) : string :=
  match bs with
  | [] => EmptyString
  | [a] =>
      let '(a0, (a1, (a2, (a3, (a4, (a5, (a6, a7))))))) := Byte.to_bits a in
      String (base64Char (a7, a6, a5, a4, a3, a2))
        (String (base64Char (a1, a0, false, false, false, false)) "==")
  | [a; b] =>
      let '(a0, (a1, (a2, (a3, (a4, (a5, (a6, a7))))))) := Byte.to_bits a in
      let '(b0, (b1, (b2, (b3, (b4, (b5, (b6, b7))))))) := Byte.to_bits b in
      String (base64Char (a7, a6, a5, a4, a3, a2))
        (String (base64Char (a1, a0, b7, b6, b5, b4))
          (String (base64Char (b3, b2, b1, b0, false, false)) "="))
  | a :: b :: c :: r =>
      let '(a0, (a1, (a2, (a3, (a4, (a5, (a6, a7))))))) := Byte.to_bits a in
      let '(b0, (b1, (b2, (b3, (b4, (b5, (b6, b7))))))) := Byte.to_bits b in
      let '(c0, (c1, (c2, (c3, (c4, (c5, (c6, c7))))))) := Byte.to_bits c in
      String (base64Char (a7, a6, a5, a4, a3, a2))
        (String (base64Char (a1, a0, b7, b6, b5, b4))
          (String (base64Char (b3, b2, b1, b0, c7, c6))
            (String (base64Char (c5, c4, c3, c2, c1, c0)) (base64Encode r))))
  end.

(** The sextets of the characters of the alphabet.  The decoder is lenient:
    a character outside the alphabet, the padding included, contributes
    nothing. *)
Fixpoint sextets (s : string) : list Sextet :=
  match s with
  | EmptyString => []
  | String c r =>
      match unbase64 c with
      | Some x => x :: sextets r
      | None => sextets r
      end
  end.

Fixpoint bytesOfSextets (l : list Sextet) : Buffer :=
  match l with
  | (p5, p4, p3, p2, p1, p0) :: (q5, q4, q3, q2, q1, q0)
      :: (r5, r4, r3, r2, r1, r0) :: (t5, t4, t3, t2, t1, t0) :: rest =>
      Byte.of_bits (q4, (q5, (p0, (p1, (p2, (p3, (p4, p5)))))))
        :: Byte.of_bits (r2, (r3, (r4, (r5, (q0, (q1, (q2, q3)))))))
        :: Byte.of_bits (t0, (t1, (t2, (t3, (t4, (t5, (r0, r1)))))))
        :: bytesOfSextets rest
  | [(p5, p4, p3, p2, p1, p0); (q5, q4, q3, q2, q1, q0); (r5, r4, r3, r2, r1, r0)] =>
      [Byte.of_bits (q4, (q5, (p0, (p1, (p2, (p3, (p4, p5)))))));
       Byte.of_bits (r2, (r3, (r4, (r5, (q0, (q1, (q2, q3)))))))]
  | [(p5, p4, p3, p2, p1, p0); (q5, q4, q3, q2, q1, q0)] =>
      [Byte.of_bits (q4, (q5, (p0, (p1, (p2, (p3, (p4, p5)))))))]
  | _ => []
  end.

(** [Buffer.from(s, 'base64')] *)
Definition base64Decode (s : string) : Buffer := bytesOfSextets (sextets s).

End Js.

(** ** [SessionModel.ts] *)

Module SessionModel.
Import Js.

Section WithNumbers.
Context `{JsNumber number}.

(** [interface Point] *)
Record Point := { x : number; y : number }.

(** [type NormalizedUri]: a string at run time. *)
Definition NormalizedUri := string.

(** [type ViewState]: [None] is [undefined]. *)
Record ViewStateData := {
  activeUri : NormalizedUri;
  currentCursor : option Point;
  selectedCellIds : list string;
}.
Definition ViewState := option ViewStateData.

(** The run-time object of a typed value, with the keys in the order of the
    type declaration. *)
Definition Point_js (p : Point) : JsValue number :=
  JObject [("x", JNumber (x p)); ("y", JNumber (y p))].

Definition ViewState_js (v : ViewState) : JsValue number :=
  match v with
  | None => JUndefined
  | Some d =>
      JObject [("activeUri", JString (activeUri d));
               ("currentCursor", from_option Point_js JUndefined (currentCursor d));
               ("selectedCellIds", JArray (JString <$> selectedCellIds d))]
  end.

(** The values of [viewStatesByPeerId].  The view state is kept as the
    run-time value that arrived with the update. *)
Record Entry := { viewState : JsValue number; peerId : number }.

(** The object literal [{ peerId: ..., viewState: ... }] of [apply]; every
    stored entry was built by it. *)
Definition Entry_js (e : Entry) : JsValue number :=
  JObject [("peerId", JNumber (peerId e)); ("viewState", viewState e)].

(** [type SessionModelUpdate] *)
Inductive SessionModelUpdate :=
| updateViewState (peerId : number) (newViewState : JsValue number)
| removePeer (peerId : number)
| updateCursor (peerId : number) (cursorPosition : option Point).

(** mobx's [ObservableMap]: the entries, and the changes reported to the
    observers so far (oldest first), one per [set].  Only [get] and [set]
    are represented: the order in which the map iterates over its keys (the
    order of first insertion) is not part of [entries]. *)
Record ObservableMap := {
  entries : gmap number Entry;
  reported : list (number * Entry);
}.

Definition ObservableMap_new : ObservableMap :=
  {| entries := ∅; reported := [] |}.

Definition ObservableMap_get (m : ObservableMap) (k : number) : option Entry :=
  entries m !! k.

Definition ObservableMap_set (m : ObservableMap) (k : number) (v : Entry) : ObservableMap :=
  {| entries := <[k := v]> (entries m); reported := reported m ++ [(k, v)] |}.

(** [class SessionModel] *)
Record SessionModel := { viewStatesByPeerId : ObservableMap }.

Definition new : SessionModel := {| viewStatesByPeerId := ObservableMap_new |}.

(** [JSON.stringify(val)] for the result of [Map.get], which is [undefined]
    when the key is absent. *)
Definition stringifyEntry (val : option Entry) : option string :=
  JSON_stringify (from_option Entry_js JUndefined val).

(** The object literal [newVal] of [apply]. *)
Definition newVal (p : number) (newViewState : JsValue number) : Entry :=
  {| peerId := p; viewState := newViewState |}.

Definition apply (this : SessionModel) (update : SessionModelUpdate) : SessionModel :=
  match update with
  | updateViewState p newViewState =>
      let val := ObservableMap_get (viewStatesByPeerId this) p in
      let newVal := newVal p newViewState in
      if decide (stringifyEntry val ≠ stringifyEntry (Some newVal)) then
        {| viewStatesByPeerId := ObservableMap_set (viewStatesByPeerId this) p newVal |}
      else this
  | removePeer _ => this
  | updateCursor _ _ => this
  end.

(** A feed of updates, applied in arrival order. *)
Definition applyAll (this : SessionModel) (updates : list SessionModelUpdate) : SessionModel :=
  foldl apply this updates.

(** The view states that a feed carries for peer [p], in arrival order. *)
Definition viewStatesFor (p : number) (updates : list SessionModelUpdate)
    : list (JsValue number) :=
  omap (fun u => match u with
                 | updateViewState q w => if decide (q = p) then Some w else None
                 | _ => None
                 end) updates.

(** What an observer obtains by replaying the reported changes. *)
Definition replay (changes : list (number * Entry)) : gmap number Entry :=
  foldl (fun m ke => <[ke.1 := ke.2]> m) ∅ changes.

End WithNumbers.
Arguments Point : clear implicits.
Arguments ViewStateData : clear implicits.
Arguments ViewState : clear implicits.
Arguments Entry : clear implicits.
Arguments SessionModelUpdate : clear implicits.
Arguments ObservableMap number {_}.
Arguments SessionModel number {_}.

End SessionModel.

(** ** [CustomDrawioInstance.ts] *)

Module CustomDrawioInstance.
Import Js.

Section Bridge.
Context `{JsNumber number}.

(** The base class [DrawioInstance] is not part of these sources.  Its state
    and the three members used here are taken as given: the two ways to send
    an action and the inherited [handleEvent]. *)
Context {DrawioInstance : Type}.
Context (sendCustomAction : JsObject number -> DrawioInstance -> DrawioInstance).
Context (sendCustomActionExpectResponse :
  JsObject number -> DrawioInstance -> Completion (JsObject number) * DrawioInstance).
Context (super_handleEvent :
  JsObject number -> DrawioInstance -> Completion unit * DrawioInstance).

(** The five private emitters. *)
Inductive Emitter :=
| onNodeSelectedEmitter
| onCustomPluginLoadedEmitter
| onCursorChangeEmitter
| onSelectionsChangedEmitter
| onFocusChangedEmitter.

(** An instance: the inherited part, and what the emitters have delivered to
    their subscribers so far (oldest first). *)
Record CustomDrawioInstance := {
  base : DrawioInstance;
  emitted : list (Emitter * JsObject number);
}.

(** [emitter.emit(payload)] *)
Definition emit (e : Emitter) (payload : JsObject number)
    (this : CustomDrawioInstance) : CustomDrawioInstance :=
  {| base := base this; emitted := emitted this ++ [(e, payload)] |}.

Definition onBase (f : DrawioInstance -> DrawioInstance)
    (this : CustomDrawioInstance) : CustomDrawioInstance :=
  {| base := f (base this); emitted := emitted this |}.

Definition linkSelectedNodeWithData (linkedData : JsValue number) :=
  onBase (sendCustomAction
    [("action", JString "linkSelectedNodeWithData"); ("linkedData", linkedData)]).

(** The promise returned by [getVertices], and the instance afterwards. *)
Definition getVertices (this : CustomDrawioInstance)
    : Completion (JsValue number) * CustomDrawioInstance :=
  let '(answer, base') :=
    sendCustomActionExpectResponse [("action", JString "getVertices")] (base this) in
  (response ← answer;
   if negb (isString (getProp response "event") "getVertices")
   then Throw (Error "Invalid Response")
   else Normal (getProp response "vertices"),
   {| base := base'; emitted := emitted this |}).

Definition setNodeSelectionEnabled (enabled : bool) :=
  onBase (sendCustomAction
    [("action", JString "setNodeSelectionEnabled"); ("enabled", JBoolean enabled)]).

Definition updateVertices (verticesToUpdate : JsValue number) :=
  onBase (sendCustomAction
    [("action", JString "updateVertices"); ("verticesToUpdate", verticesToUpdate)]).

Definition addVertices (vertices : JsValue number) :=
  onBase (sendCustomAction
    [("action", JString "addVertices"); ("vertices", vertices)]).

Definition updateGhostCursors (cursorUpdateInfos : JsValue number) :=
  onBase (sendCustomAction
    [("action", JString "updateGhostCursors"); ("cursors", cursorUpdateInfos)]).

Definition updateGhostSelections (selectionsUpdateInfos : JsValue number) :=
  onBase (sendCustomAction
    [("action", JString "updateGhostSelections"); ("selections", selectionsUpdateInfos)]).

Definition handleEvent (evt : JsObject number) (this : CustomDrawioInstance)
    : Completion unit * CustomDrawioInstance :=
  let tag := getProp evt "event" in
  if isString tag "nodeSelected" then
    (Normal (), emit onNodeSelectedEmitter
       [("label", getProp evt "label"); ("linkedData", getProp evt "linkedData")] this)
  else if isString tag "pluginLoaded" then
    (Normal (), emit onCustomPluginLoadedEmitter
       [("pluginId", getProp evt "pluginId")] this)
  else if isString tag "focusChanged" then
    (Normal (), emit onFocusChangedEmitter
       [("hasFocus", getProp evt "hasFocus")] this)
  else if isString tag "cursorChanged" then
    (Normal (), emit onCursorChangeEmitter
       [("newPosition", getProp evt "position")] this)
  else if isString tag "selectionChanged" then
    (Normal (), emit onSelectionsChangedEmitter
       [("selectedCellIds", getProp evt "selectedCellIds")] this)
  else
    let '(r, base') := super_handleEvent evt (base this) in
    (r, {| base := base'; emitted := emitted this |}).

(** The tags this layer interprets. *)
Definition customEvents : list string :=
  ["nodeSelected"; "pluginLoaded"; "focusChanged"; "cursorChanged"; "selectionChanged"].

End Bridge.
Arguments CustomDrawioInstance number DrawioInstance : clear implicits.

End CustomDrawioInstance.

(** ** The configuration file: [class Config] *)

Module Config.
Import Js.

(** An element of the [knownPlugins] setting. *)
Record KnownPlugin := {
  pluginId : string;
  fingerprint : string;
  allowed : bool;
}.

(** Modelled from the spec: [VsCodeSetting] and [serializerWithDefault] are
    not among the sources.  A setting is the value persisted for its key, if
    any; [get] yields the documented default when nothing is persisted
    ([knownPlugins]: default empty) and [set] persists the value given. *)
Definition VsCodeSetting (T : Type) := option T.

(** Modelled from the spec: [VsCodeSetting.get] with [serializerWithDefault]. *)
Definition VsCodeSetting_get {T} (dflt : T) (s : VsCodeSetting T) : T := default dflt s.

(** Modelled from the spec: [VsCodeSetting.set]. *)
Definition VsCodeSetting_set {T} (v : T) (s : VsCodeSetting T) : VsCodeSetting T := Some v.

Record Config := { _knownPlugins : VsCodeSetting (list KnownPlugin) }.

(** The arrow function of [data.find]. *)
Definition sameKey (pid fp : string) (d : KnownPlugin) : bool :=
  String.eqb (pluginId d) pid && String.eqb (fingerprint d) fp.

(** [None] is [undefined]. *)
Definition isPluginAllowed (this : Config) (pid fp : string) : option bool :=
  let data := VsCodeSetting_get [] (_knownPlugins this) in
  match List.find (sameKey pid fp) data with
  | None => None
  | Some entry => Some (allowed entry)
  end.

Definition addKnownPlugin (this : Config) (pid fp : string) (allow : bool) : Config :=
  let plugins :=
    List.filter
      (fun p => negb (String.eqb (pluginId p) pid) || negb (String.eqb (fingerprint p) fp))
      (VsCodeSetting_get [] (_knownPlugins this)) in
  let plugins := (plugins ++ [{| pluginId := pid; fingerprint := fp; allowed := allow |}])%list in
  {| _knownPlugins := VsCodeSetting_set plugins (_knownPlugins this) |}.

(** [get alreadyAskedToTest()] and [markAskedToTest()]: [version] is
    [packageJson.version], and the setting is [_lastVersionAskedToTest],
    whose default is [undefined] ([None]). *)
Definition alreadyAskedToTest (version : string)
    (_lastVersionAskedToTest : VsCodeSetting (option string)) : bool :=
  match VsCodeSetting_get None _lastVersionAskedToTest with
  | Some asked => String.eqb asked version
  | None => false
  end.

Definition markAskedToTest (version : string)
    (_lastVersionAskedToTest : VsCodeSetting (option string))
    : VsCodeSetting (option string) :=
  VsCodeSetting_set (Some version) _lastVersionAskedToTest.

End Config.

(** ** The configuration file: [class DiagramConfig] *)

Module DiagramConfig.
Import Js.
Export Config.

(** *** Local storage *)

Section LocalStorage.
Context `{JsNumber number}.

(** [utils/mapObject] is not part of these sources; it is only used on the
    development path of the serializer and on persisted objects. *)
Context (mapObject :
  JsValue number -> (JsValue number -> JsValue number) -> Completion (JsValue number)).

(** The object of a [Record<string, string>]. *)
Definition Record_js (val : list (string * string)) : JsValue number :=
  JObject (prod_map id JString <$> val).

Definition ToBoolean (v : JsValue number) : bool :=
  match v with
  | JUndefined | JNull => false
  | JBoolean b => b
  | JNumber n => Number_toBoolean n
  | JString s => negb (isEmpty s)
  | JArray _ | JObject _ => true
  end.

(** [new Buffer(x, "base64")], for an [x] that is not an object: a string is
    decoded, a number or a boolean is refused. *)
Definition Buffer_new_base64 (x : JsValue number) : Completion Buffer :=
  match x with
  | JString s => Normal (base64Decode s)
  | _ => Throw TypeError
  end.

(** [(item) => typeof item === "string" ? item : JSON.stringify(item)] *)
Definition stringifyItem (item : JsValue number) : JsValue number :=
  match typeof item with
  | TString => item
  | _ => from_option JString JUndefined (JSON_stringify item)
  end.

Definition deserialize (value : JsValue number) : Completion (JsValue number) :=
  match typeof value with
  | TObject =>
      _ ← mapObject value stringifyItem;
      mapObject value stringifyItem
  | _ =>
      buf ← Buffer_new_base64 (if ToBoolean value then value else JString EmptyString);
      let str := Buffer_toString_utf8 buf in
      JSON_parse str
  end.

Definition tryJsonParse (val : string) : JsValue number :=
  match JSON_parse val with
  | Normal v => v
  | Throw _ => JString val
  end.

(** [env_DEV] is [process.env.DEV === "1"]. *)
Definition serializer (env_DEV : bool) (val : list (string * string))
    : Completion (JsValue number) :=
  if env_DEV then
    mapObject (Record_js val)
      (fun item => match item with JString s => tryJsonParse s | _ => item end)
  else
    match JSON_stringify (Record_js val) with
    | Some text => Normal (JString (base64Encode (Buffer_from_utf8 text)))
    | None => Throw TypeError
    end.

End LocalStorage.

(** A [mapObject] to run the definitions with: the values of the own
    properties are mapped, and what is not a plain object is refused. *)
Definition mapObjectValues {number} (obj : JsValue number)
    (fn : JsValue number -> JsValue number) : Completion (JsValue number) :=
  match obj with
  | JObject ps => Normal (JObject (prod_map id fn <$> ps))
  | _ => Throw TypeError
  end.

(** *** Templates, plugins and custom libraries *)

Definition placeholder : string := "${workspaceFolder}".

(** Modelled from the spec: [utils/SimpleTemplate] is not among the sources.
    The spec describes a minimal substitution facility with one recognized
    placeholder: every occurrence of [${workspaceFolder}] is replaced by the
    result of calling the entry of that name, from left to right, and all
    other text is copied.  [skip] counts the characters of an occurrence
    that are still to be passed over. *)
Fixpoint SimpleTemplate_renderFrom (skip : nat) (str : string)
    (workspaceFolder : unit -> Completion string) : Completion string :=
  match str with
  | EmptyString => Normal EmptyString
  | String c r =>
      match skip with
      | S k => SimpleTemplate_renderFrom k r workspaceFolder
      | 0 =>
          if String.prefix placeholder str then
            v ← workspaceFolder ();
            rest ← SimpleTemplate_renderFrom (String.length placeholder - 1) r workspaceFolder;
            Normal (v ++ rest)
          else
            rest ← SimpleTemplate_renderFrom 0 r workspaceFolder;
            Normal (String c rest)
      end
  end.

(** Modelled from the spec: [new SimpleTemplate(str).render(data)]. *)
Definition SimpleTemplate_render (str : string)
    (workspaceFolder : unit -> Completion string) : Completion string :=
  SimpleTemplate_renderFrom 0 str workspaceFolder.

(** [s.endsWith(suffix)] *)
Definition endsWith (s suffix : string) : bool :=
  (String.length suffix <=? String.length s)%nat &&
  String.eqb (substring (String.length s - String.length suffix) (String.length suffix) s) suffix.

Section Settings.
Context `{JsNumber number}.

(** The editor's side: [vscode.Uri], [workspace.getWorkspaceFolder] with
    [folder.uri.fsPath], the text of a file read through [workspace.fs], and
    the text of the first child of the root element found by
    [xml-parser-xo]. *)
Definition Uri := string.
Record WorkspaceFolder := { fsPath : string }.
Context (getWorkspaceFolder : Uri -> option WorkspaceFolder).
Context (readFile : string -> Completion string).
Context (xmlFirstChildContent : string -> Completion string).

Record Plugin := { file : string }.

(** [type DrawioCustomLibrary] *)
Inductive LibrarySource :=
| SourceXml (xml : string)
| SourceUrl (url : string)
| SourceJson (json : string)
| SourceFile (file : string).

Record DrawioCustomLibrary := {
  source : LibrarySource;
  libName : string;
  entryId : string;
}.

(** [DrawioLibraryData], as built by [normalizeLib]. *)
Inductive LibraryData :=
| KindValue (value : JsValue number)
| KindUrl (url : string).

Record DrawioLibraryData := {
  data_libName : string;
  data_entryId : string;
  data : LibraryData;
}.

Record DiagramConfig := {
  uri : Uri;
  _plugins : VsCodeSetting (list Plugin);
  _customLibraries : VsCodeSetting (list DrawioCustomLibrary);
}.

Definition noWorkspaceMessage : string :=
  "No workspace is opened - '${workspaceFolder} cannot be used'!".

Definition evaluateTemplate (this : DiagramConfig) (template : string) : Completion string :=
  SimpleTemplate_render template
    (fun _ =>
       match getWorkspaceFolder (uri this) with
       | None => Throw (Error noWorkspaceMessage)
       | Some workspaceFolder => Normal (fsPath workspaceFolder)
       end).

Definition plugins (this : DiagramConfig) : Completion (list Plugin) :=
  mapM (fun entry =>
          fullFilePath ← evaluateTemplate this (file entry);
          mret {| file := fullFilePath |})
       (VsCodeSetting_get [] (_plugins this)).

Definition parseJson (json : string) : Completion (JsValue number) := JSON_parse json.

Definition parseXml (xml : string) : Completion (JsValue number) :=
  content ← xmlFirstChildContent xml; JSON_parse content.

Definition normalizeLib (this : DiagramConfig) (lib : DrawioCustomLibrary)
    : Completion DrawioLibraryData :=
  d ← match source lib with
      | SourceJson json => v ← parseJson json; mret (KindValue v)
      | SourceXml xml => v ← parseXml xml; mret (KindValue v)
      | SourceFile f =>
          file ← evaluateTemplate this f;
          content ← readFile file;
          if endsWith file ".json"
          then v ← parseJson content; mret (KindValue v)
          else v ← parseXml content; mret (KindValue v)
      | SourceUrl url => mret (KindUrl url)
      end;
  mret {| data_libName := libName lib; data_entryId := entryId lib; data := d |}.

(** [Promise.all]: the results in order, or the rejection of the first
    element in list order that is rejected.  The engine reports the
    rejection that settles first; the two agree when every element before
    the rejected one resolves and that one is rejected before its first
    [await], as [normalizeLib] is by a failing [evaluateTemplate]. *)
Definition Promise_all {A} (ps : list (Completion A)) : Completion (list A) :=
  mapM id ps.

Definition customLibraries (this : DiagramConfig) : Completion (list DrawioLibraryData) :=
  Promise_all (normalizeLib this <$> VsCodeSetting_get [] (_customLibraries this)).

End Settings.

(** *** Theme *)

(** [vscode.ColorThemeKind], with the three kinds the table of [theme]
    lists. *)
Inductive ColorThemeKind := Light | Dark | HighContrast.

(** [get theme()]: [_theme] is the setting of the document and [kind] is
    [window.activeColorTheme.kind]. *)
Definition theme (_theme : VsCodeSetting string) (kind : ColorThemeKind) : string :=
  let theme := VsCodeSetting_get "automatic" _theme in
  if negb (String.eqb theme "automatic") then theme
  else match kind with
       | Light => "Kennedy"
       | Dark => "dark"
       | HighContrast => "Kennedy"
       end.

Definition setTheme (value : string) (_theme : VsCodeSetting string)
    : VsCodeSetting string :=
  VsCodeSetting_set value _theme.

End DiagramConfig.

(** * Properties *)

Local Open Scope list_scope.

(** ** The session model *)

Section SessionModelFacts.
Import Js SessionModel.
Context `{JsNumber number}.
Implicit Types (s : SessionModel number) (p q : number) (v : JsValue number).

(** The candidate entry always has a JSON text: it starts with its peer id. *)
Lemma stringifyEntry_Some (e : Entry number) : is_Some (stringifyEntry (Some e)).
Proof. unfold stringifyEntry, JSON_stringify. simpl. eauto. Qed.

Lemma stringifyEntry_None_ne (e : Entry number) :
  stringifyEntry None ≠ stringifyEntry (Some e).
Proof.
  destruct (stringifyEntry_Some e) as [t Ht]. rewrite Ht. discriminate.
Qed.

Lemma apply_updateViewState s p v :
  apply s (updateViewState p v) =
    if decide (stringifyEntry (entries (viewStatesByPeerId s) !! p)
               ≠ stringifyEntry (Some (newVal p v)))
    then {| viewStatesByPeerId := ObservableMap_set (viewStatesByPeerId s) p (newVal p v) |}
    else s.
Proof. reflexivity. Qed.

(** After an [updateViewState] the stored entry of the peer has the JSON
    text of the candidate. *)
Lemma apply_stored_text s p v :
  stringifyEntry (entries (viewStatesByPeerId (apply s (updateViewState p v))) !! p)
  = stringifyEntry (Some (newVal p v)).
Proof.
  rewrite apply_updateViewState. case_decide as Hne.
  - simpl. by rewrite lookup_insert_eq.
  - exact Hne.
Qed.

Lemma apply_again s p v :
  apply (apply s (updateViewState p v)) (updateViewState p v)
  = apply s (updateViewState p v).
Proof.
  rewrite (apply_updateViewState (apply s _)), apply_stored_text.
  by rewrite decide_False by (intros Hne; by apply Hne).
Qed.

Lemma apply_dom s (u : SessionModelUpdate number) :
  dom (entries (viewStatesByPeerId s)) ⊆ dom (entries (viewStatesByPeerId (apply s u))).
Proof.
  destruct u as [p v | p | p c]; [|done..].
  rewrite apply_updateViewState. case_decide; [|done].
  simpl. rewrite dom_insert_L. set_solver.
Qed.

Lemma applyAll_dom (updates : list (SessionModelUpdate number)) s :
  dom (entries (viewStatesByPeerId s))
  ⊆ dom (entries (viewStatesByPeerId (applyAll s updates))).
Proof.
  revert s. induction updates as [|u updates IH]; intros s; [done|].
  unfold applyAll in *. simpl. etrans; [apply (apply_dom s u) | apply IH].
Qed.

Lemma sameContent_eq (a b : JsValue number) : sameContent eq a b -> a = b.
Proof.
  revert a b. fix IH 3. intros a b Hab.
  destruct Hab as [w | l1 l2 Hl | ps ps' qs Hk Hf].
  - reflexivity.
  - f_equal. induction Hl as [|x y l1 l2 Hxy _ IHl]; [reflexivity|].
    f_equal; [by apply IH | exact IHl].
  - subst ps'. f_equal. induction Hf as [|[k1 x] [k2 y] l1 l2 [Hk Hxy] _ IHl]; [reflexivity|].
    simpl in *. f_equal; [|exact IHl]. f_equal; [exact Hk | by apply IH].
Qed.

(** C1 (amended): applying the same [updateViewState] twice in a row, in any
    state, performs at most one stored mutation and fires at most one
    notification.  The second application changes nothing and fires nothing;
    the first one stores and reports the candidate exactly when the entry
    stored for the peer has another JSON text (in particular when there is
    none), and otherwise leaves the model as it was. *)
Theorem apply_same_update_twice s p v :
  let u := updateViewState p v in
  let s1 := apply s u in
  let s2 := apply s1 u in
  s2 = s1 /\
  s1 = (if decide (stringifyEntry (entries (viewStatesByPeerId s) !! p)
                   = stringifyEntry (Some (newVal p v)))
        then s
        else {| viewStatesByPeerId :=
                  {| entries := <[p := newVal p v]> (entries (viewStatesByPeerId s));
                     reported := reported (viewStatesByPeerId s) ++ [(p, newVal p v)] |} |}) /\
  length (reported (viewStatesByPeerId s2))
  = length (reported (viewStatesByPeerId s))
    + (if decide (stringifyEntry (entries (viewStatesByPeerId s) !! p)
                  = stringifyEntry (Some (newVal p v)))
       then 0 else 1).
Proof.
  intros u s1 s2. subst s2 s1 u. rewrite apply_again.
  split; [reflexivity|]. rewrite apply_updateViewState.
  destruct (decide (stringifyEntry (entries (viewStatesByPeerId s) !! p)
                    = stringifyEntry (Some (newVal p v)))) as [Heq|Hne].
  - rewrite decide_False by (intros Hne; by apply Hne).
    split; [reflexivity | lia].
  - rewrite decide_True by exact Hne.
    split; [reflexivity|]. simpl. by rewrite length_app.
Qed.

(** C2: [removePeer] and [updateCursor] leave the model exactly as it was
    (no entry added, removed or modified, nothing reported), and no sequence
    of [apply] calls removes a peer from the map. *)
Theorem apply_removePeer_updateCursor s p (cursorPosition : option (Point number))
    (updates : list (SessionModelUpdate number)) :
  apply s (removePeer p) = s /\
  apply s (updateCursor p cursorPosition) = s /\
  dom (entries (viewStatesByPeerId s))
  ⊆ dom (entries (viewStatesByPeerId (applyAll s updates))).
Proof. split; [reflexivity|]. split; [reflexivity|]. apply applyAll_dom. Qed.

(** C6: the first [updateViewState] for a peer without an entry always
    stores the entry with that peer id and the view state of the update, and
    reports it, whatever the view state is ([undefined] included): the JSON
    text of an absent entry differs from the text of every entry. *)
Theorem apply_first_updateViewState s p v :
  entries (viewStatesByPeerId s) !! p = None ->
  apply s (updateViewState p v)
  = {| viewStatesByPeerId :=
         {| entries := <[p := {| viewState := v; peerId := p |}]>
                         (entries (viewStatesByPeerId s));
            reported := reported (viewStatesByPeerId s)
                        ++ [(p, {| viewState := v; peerId := p |})] |} |} /\
  entries (viewStatesByPeerId (apply s (updateViewState p v))) !! p
  = Some {| viewState := v; peerId := p |} /\
  reported (viewStatesByPeerId (apply s (updateViewState p v)))
  = reported (viewStatesByPeerId s) ++ [(p, {| viewState := v; peerId := p |})] /\
  forall e : Entry number, stringifyEntry None ≠ stringifyEntry (Some e).
Proof.
  intros Hnone. rewrite apply_updateViewState, Hnone.
  rewrite decide_True by apply stringifyEntry_None_ne.
  split; [reflexivity|]. split; [apply lookup_insert_eq|].
  split; [reflexivity|]. apply stringifyEntry_None_ne.
Qed.

(** C10: an [updateViewState] for peer [p] leaves the entry of every other
    peer [q], present or absent, as it was. *)
Theorem apply_other_peer s p q v :
  q ≠ p ->
  entries (viewStatesByPeerId (apply s (updateViewState p v))) !! q
  = entries (viewStatesByPeerId s) !! q.
Proof.
  intros Hqp. rewrite apply_updateViewState. case_decide; [|done].
  simpl. by rewrite lookup_insert_ne.
Qed.

End SessionModelFacts.

(** The session model run on integer peer ids. *)

Section SessionModelRuns.
Import Js SessionModel.

(** C1, as stated, fails: once an update has been applied, applying it twice
    more in a row performs no mutation at all. *)
Lemma apply_twice_exactly_one_mutation_fails :
  ~ (forall (updates : list (SessionModelUpdate Z)) (p : Z) (v : JsValue Z),
       let s := applyAll new updates in
       let s2 := apply (apply s (updateViewState p v)) (updateViewState p v) in
       length (reported (viewStatesByPeerId s2))
       = S (length (reported (viewStatesByPeerId s)))).
Proof.
  intros Hone.
  specialize (Hone [updateViewState 1%Z JUndefined] 1%Z JUndefined).
  vm_compute in Hone. discriminate Hone.
Qed.

(** C3, as stated, fails: the same view state with its keys in another order
    has another JSON text. *)
Lemma comparison_depends_on_key_order :
  ~ (forall (p : Z) (a b : JsValue Z),
       sameContent Permutation a b ->
       stringifyEntry (Some (newVal p a)) = stringifyEntry (Some (newVal p b))).
Proof.
  intros Hsame.
  specialize (Hsame 1%Z
    (ViewState_js (Some {| activeUri := "file:///a.drawio";
                           currentCursor := None;
                           selectedCellIds := ["2"] |}))
    (JObject [("selectedCellIds", JArray [JString "2"]);
              ("activeUri", JString "file:///a.drawio");
              ("currentCursor", JUndefined)])).
  assert (Htexts : stringifyEntry (Some (newVal 1%Z
            (ViewState_js (Some {| activeUri := "file:///a.drawio";
                                   currentCursor := None;
                                   selectedCellIds := ["2"] |}))))
          ≠ stringifyEntry (Some (newVal 1%Z
            (JObject [("selectedCellIds", JArray [JString "2"]);
                      ("activeUri", JString "file:///a.drawio");
                      ("currentCursor", JUndefined)]))))
    by (vm_compute; discriminate).
  apply Htexts, Hsame. simpl.
  eapply same_object with
    (ps' := [("selectedCellIds", JArray [JString "2"]);
             ("activeUri", JString "file:///a.drawio");
             ("currentCursor", JUndefined)]).
  - apply Permutation_sym, (Permutation_app_comm [_] [_; _]).
  - repeat constructor.
Qed.

Lemma apply_first_updateViewState_witness :
  let v : JsValue Z :=
    JObject [("activeUri", JString "file:///a.drawio");
             ("currentCursor", JObject [("x", JNumber 3%Z); ("y", JNumber 4%Z)]);
             ("selectedCellIds", JArray [JString "2"])] in
  entries (viewStatesByPeerId (new (number := Z))) !! 7%Z = None /\
  entries (viewStatesByPeerId (apply new (updateViewState 7%Z v))) !! 7%Z
  = Some {| viewState := v; peerId := 7%Z |} /\
  reported (viewStatesByPeerId (apply new (updateViewState 7%Z v)))
  = [(7%Z, {| viewState := v; peerId := 7%Z |})].
Proof.
  intros v. split; [reflexivity|].
  destruct (apply_first_updateViewState (new (number := Z)) 7%Z v eq_refl)
    as (_ & Hstored & Hreported & _).
  split; [exact Hstored | exact Hreported].
Defined.

Lemma apply_other_peer_witness :
  (2 ≠ 1)%Z /\
  entries (viewStatesByPeerId (apply new (updateViewState 1%Z JNull))) !! 2%Z
  = entries (viewStatesByPeerId (new (number := Z))) !! 2%Z.
Proof.
  split; [lia|].
  apply (apply_other_peer (new (number := Z)) 1%Z 2%Z JNull). lia.
Defined.

End SessionModelRuns.

(** ** The custom drawio bridge *)

Section BridgeFacts.
Import Js CustomDrawioInstance.
Context `{JsNumber number} {DrawioInstance : Type}.
Context (sendCustomActionExpectResponse :
  JsObject number -> DrawioInstance -> Completion (JsObject number) * DrawioInstance).
Context (super_handleEvent :
  JsObject number -> DrawioInstance -> Completion unit * DrawioInstance).
Implicit Types (this : CustomDrawioInstance number DrawioInstance) (evt : JsObject number).

Lemma isString_true (w : JsValue number) (lit : string) :
  isString w lit = true <-> w = JString lit.
Proof.
  destruct w; simpl; try (split; [discriminate | congruence]).
  rewrite String.eqb_eq. split; congruence.
Qed.

(** C4: when the response matched to the [getVertices] action carries another
    tag, the promise rejects with the error [Invalid Response]; when the tag
    is [getVertices], it resolves to the [vertices] of that response. *)
Theorem getVertices_response this (response : JsObject number) (base' : DrawioInstance) :
  sendCustomActionExpectResponse [("action", JString "getVertices")] (base this)
  = (Normal response, base') ->
  (getVertices sendCustomActionExpectResponse this).1
  = if isString (getProp response "event") "getVertices"
    then Normal (getProp response "vertices")
    else Throw (Error "Invalid Response").
Proof.
  intros Hsend. unfold getVertices. rewrite Hsend. simpl.
  by destruct (isString (getProp response "event") "getVertices").
Qed.

(** C5: [handleEvent] dispatches on the tag.  Each of the five tags of this
    layer makes exactly its own emitter fire once, with the payload built
    from the fields of the event, and completes normally; an event with any
    other tag is handed to the inherited [handleEvent], whose outcome is the
    outcome, and no emitter fires. *)
Theorem handleEvent_dispatch evt this :
  let tag := getProp evt "event" in
  let handled := handleEvent super_handleEvent evt this in
  (tag = JString "nodeSelected" ->
     handled = (Normal (),
       {| base := base this;
          emitted := emitted this ++
            [(onNodeSelectedEmitter,
              [("label", getProp evt "label"); ("linkedData", getProp evt "linkedData")])] |})) /\
  (tag = JString "pluginLoaded" ->
     handled = (Normal (),
       {| base := base this;
          emitted := emitted this ++
            [(onCustomPluginLoadedEmitter, [("pluginId", getProp evt "pluginId")])] |})) /\
  (tag = JString "focusChanged" ->
     handled = (Normal (),
       {| base := base this;
          emitted := emitted this ++
            [(onFocusChangedEmitter, [("hasFocus", getProp evt "hasFocus")])] |})) /\
  (tag = JString "cursorChanged" ->
     handled = (Normal (),
       {| base := base this;
          emitted := emitted this ++
            [(onCursorChangeEmitter, [("newPosition", getProp evt "position")])] |})) /\
  (tag = JString "selectionChanged" ->
     handled = (Normal (),
       {| base := base this;
          emitted := emitted this ++
            [(onSelectionsChangedEmitter,
              [("selectedCellIds", getProp evt "selectedCellIds")])] |})) /\
  ((forall t, t ∈ customEvents -> tag ≠ JString t) ->
     handled = ((super_handleEvent evt (base this)).1,
                {| base := (super_handleEvent evt (base this)).2;
                   emitted := emitted this |})).
Proof.
  intros tag handled. subst handled. unfold handleEvent. fold tag.
  repeat split; intros Htag.
  1-5: by rewrite Htag.
  assert (Hno : forall t, t ∈ customEvents -> isString tag t = false).
  { intros t Ht. destruct (isString tag t) eqn:Hs; [|done].
    apply isString_true in Hs. by destruct (Htag t Ht). }
  rewrite !Hno by (unfold customEvents; repeat constructor).
  by destruct (super_handleEvent evt (base this)).
Qed.

End BridgeFacts.

Section BridgeRuns.
Import Js CustomDrawioInstance.

(** A channel that records the actions sent and answers every request with
    the same response; the inherited handler records the events it is given. *)
Lemma getVertices_response_witness :
  let response : JsObject Z :=
    [("event", JString "getVertices");
     ("vertices", JArray [JObject [("id", JString "2"); ("label", JString "A")]])] in
  let send := fun (a : JsObject Z) (sent : list (JsObject Z)) =>
                (Normal response, sent ++ [a]) in
  let this := {| base := []; emitted := [] |} in
  send [("action", JString "getVertices")] (base this)
  = (Normal response, [[("action", JString "getVertices")]]) /\
  (getVertices send this).1 = Normal (getProp response "vertices").
Proof.
  intros response send this. split; [reflexivity|].
  apply (getVertices_response send this response [[("action", JString "getVertices")]]).
  reflexivity.
Defined.

Lemma handleEvent_dispatch_witness :
  let evt : JsObject Z :=
    [("event", JString "nodeSelected"); ("label", JString "A"); ("linkedData", JNull)] in
  let super := fun (e : JsObject Z) (seen : list (JsObject Z)) => (Normal (), seen ++ [e]) in
  handleEvent super evt {| base := []; emitted := [] |}
  = (Normal (),
     {| base := [];
        emitted := [(onNodeSelectedEmitter,
                     [("label", JString "A"); ("linkedData", JNull)])] |}).
Proof.
  intros evt super.
  apply (handleEvent_dispatch super evt {| base := []; emitted := [] |}).
  reflexivity.
Defined.

End BridgeRuns.

(** ** Known plugins *)

Section ConfigFacts.
Import Config.
Implicit Types (this : Config) (d : KnownPlugin) (l : list KnownPlugin).

Lemma sameKey_self pid fp allow :
  sameKey pid fp {| pluginId := pid; fingerprint := fp; allowed := allow |} = true.
Proof. unfold sameKey. simpl. by rewrite !String.eqb_refl. Qed.

Lemma otherKey_negb pid fp d :
  negb (String.eqb (pluginId d) pid) || negb (String.eqb (fingerprint d) fp)
  = negb (sameKey pid fp d).
Proof. unfold sameKey. by rewrite negb_andb. Qed.

Lemma filter_otherKey pid fp l :
  List.filter
    (fun p => negb (String.eqb (pluginId p) pid) || negb (String.eqb (fingerprint p) fp)) l
  = List.filter (fun d => negb (sameKey pid fp d)) l.
Proof. apply List.filter_ext. intros d. apply otherKey_negb. Qed.

Lemma filter_sameKey_others pid fp l :
  List.filter (sameKey pid fp) (List.filter (fun d => negb (sameKey pid fp d)) l) = [].
Proof.
  induction l as [|d l IH]; [reflexivity|]. simpl.
  destruct (sameKey pid fp d) eqn:Hd; simpl; [exact IH|]. by rewrite Hd.
Qed.

Lemma find_sameKey_others pid fp l :
  List.find (sameKey pid fp) (List.filter (fun d => negb (sameKey pid fp d)) l) = None.
Proof.
  induction l as [|d l IH]; [reflexivity|]. simpl.
  destruct (sameKey pid fp d) eqn:Hd; simpl; [exact IH|]. by rewrite Hd.
Qed.

Lemma find_app_None (f : KnownPlugin -> bool) l1 l2 :
  List.find f l1 = None -> List.find f (l1 ++ l2) = List.find f l2.
Proof.
  induction l1 as [|d l1 IH]; [done|]. simpl.
  destruct (f d); [discriminate | exact IH].
Qed.

Lemma filter_others_idem pid fp l :
  List.filter (fun d => negb (sameKey pid fp d))
    (List.filter (fun d => negb (sameKey pid fp d)) l)
  = List.filter (fun d => negb (sameKey pid fp d)) l.
Proof.
  induction l as [|d l IH]; [reflexivity|]. simpl.
  destruct (sameKey pid fp d) eqn:Hd; simpl; [exact IH|]. rewrite Hd. simpl. by f_equal.
Qed.

(** C9: [addKnownPlugin] replaces the decision stored for the key
    [(pluginId, fingerprint)]: afterwards the list holds exactly one entry
    with that key, the new one, the entries of the other keys are the ones
    stored before, in their order, and [isPluginAllowed] yields the new
    value.  For a key without a stored decision [isPluginAllowed] yields
    [undefined]. *)
Theorem addKnownPlugin_replaces this pid fp allow :
  let decision := {| pluginId := pid; fingerprint := fp; allowed := allow |} in
  let stored := VsCodeSetting_get [] (_knownPlugins this) in
  let stored' := VsCodeSetting_get [] (_knownPlugins (addKnownPlugin this pid fp allow)) in
  List.filter (sameKey pid fp) stored' = [decision] /\
  List.filter (fun d => negb (sameKey pid fp d)) stored'
  = List.filter (fun d => negb (sameKey pid fp d)) stored /\
  isPluginAllowed (addKnownPlugin this pid fp allow) pid fp = Some allow /\
  (forall pid' fp',
     Forall (fun d => sameKey pid' fp' d = false) stored ->
     isPluginAllowed this pid' fp' = None).
Proof.
  intros decision stored stored'.
  assert (Hstored' : stored'
            = List.filter (fun d => negb (sameKey pid fp d)) stored ++ [decision]).
  { subst stored' stored decision. unfold addKnownPlugin. simpl.
    by rewrite filter_otherKey. }
  split; [|split; [|split]].
  - rewrite Hstored', List.filter_app, filter_sameKey_others.
    subst decision. cbn [List.filter]. by rewrite sameKey_self.
  - rewrite Hstored', List.filter_app, filter_others_idem.
    subst decision. cbn [List.filter]. rewrite sameKey_self. simpl. apply app_nil_r.
  - unfold isPluginAllowed. fold stored'. rewrite Hstored'.
    rewrite find_app_None by apply find_sameKey_others.
    subst decision. cbn [List.find]. by rewrite sameKey_self.
  - intros pid' fp' Hnone. unfold isPluginAllowed. fold stored. clear Hstored'.
    induction Hnone as [|d l Hd _ IH]; [reflexivity|]. simpl. by rewrite Hd.
Qed.

Lemma addKnownPlugin_replaces_witness :
  let this := {| _knownPlugins :=
                   Some [{| pluginId := "p"; fingerprint := "f1"; allowed := true |};
                         {| pluginId := "q"; fingerprint := "f2"; allowed := true |};
                         {| pluginId := "p"; fingerprint := "f1"; allowed := true |}] |} in
  VsCodeSetting_get [] (_knownPlugins (addKnownPlugin this "p" "f1" false))
  = [{| pluginId := "q"; fingerprint := "f2"; allowed := true |};
     {| pluginId := "p"; fingerprint := "f1"; allowed := false |}] /\
  isPluginAllowed (addKnownPlugin this "p" "f1" false) "p" "f1" = Some false /\
  isPluginAllowed this "p" "f2" = None.
Proof.
  intros this. split; [reflexivity|].
  destruct (addKnownPlugin_replaces this "p" "f1" false) as (_ & _ & Hnew & Hnone).
  split; [exact Hnew|]. apply Hnone. repeat constructor.
Defined.

End ConfigFacts.

(** ** Strings *)

Section StringFacts.

Lemma append_String (c : ascii) (s t : string) : String c s +:+ t = String c (s +:+ t).
Proof. reflexivity. Qed.

Lemma append_Empty (t : string) : EmptyString +:+ t = t.
Proof. reflexivity. Qed.

Lemma append_nil_r (s : string) : s +:+ EmptyString = s.
Proof. induction s as [|c s IH]; [reflexivity | by rewrite append_String, IH]. Qed.

Lemma append_assoc (s1 s2 s3 : string) : (s1 +:+ s2) +:+ s3 = s1 +:+ (s2 +:+ s3).
Proof. induction s1 as [|c s1 IH]; [reflexivity | by rewrite !append_String, IH]. Qed.

Lemma length_append (s1 s2 : string) :
  String.length (s1 +:+ s2) = String.length s1 + String.length s2.
Proof.
  induction s1 as [|c s1 IH]; [reflexivity|]. rewrite append_String. simpl. by rewrite IH.
Qed.

Lemma prefix_Empty (s : string) : String.prefix EmptyString s = true.
Proof. by destruct s. Qed.

Lemma prefix_app_long (p a b : string) :
  String.length p <= String.length a -> String.prefix p (a +:+ b) = String.prefix p a.
Proof.
  revert a. induction p as [|c p IH]; intros a Hlen.
  - by rewrite !prefix_Empty.
  - destruct a as [|d a]; [simpl in Hlen; lia|]. rewrite append_String. simpl in *.
    destruct (ascii_dec c d); [apply IH; lia | reflexivity].
Qed.

Lemma prefix_length (p s : string) :
  String.prefix p s = true -> String.length p <= String.length s.
Proof.
  revert s. induction p as [|c p IH]; intros s Hp; simpl; [lia|].
  destruct s as [|d s]; simpl in *; [discriminate|].
  destruct (ascii_dec c d); [|discriminate]. apply IH in Hp. lia.
Qed.

Lemma prefix_get (p s : string) (k : nat) :
  String.prefix p s = true -> k < String.length p -> get k s = get k p.
Proof.
  revert s k. induction p as [|c p IH]; intros s k Hp Hk; simpl in *; [lia|].
  destruct s as [|d s]; simpl in *; [discriminate|].
  destruct (ascii_dec c d) as [->|]; [|discriminate].
  destruct k as [|k]; [reflexivity|]. apply IH; [exact Hp | lia].
Qed.

End StringFacts.

(** ** Templates *)

Section TemplateFacts.
Import Js DiagramConfig.
Implicit Types (wf : unit -> Completion string) (pre post str : string).

(** The dollar sign only occurs at the start of the placeholder. *)
Lemma placeholder_dollar (k : nat) :
  0 < k -> get k placeholder ≠ Some "$"%char.
Proof.
  intros Hk. destruct k as [|k]; [lia|].
  do 18 (destruct k as [|k]; [by vm_compute|]). by vm_compute.
Qed.

(** An occurrence cannot start in a short text and end in a following
    occurrence. *)
Lemma placeholder_no_overlap pre post :
  0 < String.length pre < String.length placeholder ->
  String.prefix placeholder (pre +:+ placeholder +:+ post) = false.
Proof.
  intros [Hpos Hlt].
  destruct (String.prefix placeholder (pre +:+ placeholder +:+ post)) eqn:Hp; [|done].
  apply (prefix_get _ _ (String.length pre)) in Hp; [|exact Hlt].
  pose proof (append_correct2 pre (placeholder +:+ post) 0) as Hget.
  change (0 + String.length pre) with (String.length pre) in Hget.
  change (get 0 (placeholder +:+ post)) with (Some "$"%char) in Hget.
  destruct (placeholder_dollar (String.length pre) Hpos). by rewrite <- Hp.
Qed.

Lemma renderFrom_placeholder wf post :
  SimpleTemplate_renderFrom 0 (placeholder +:+ post) wf
  = v ← wf (); rest ← SimpleTemplate_renderFrom 0 post wf; Normal (v +:+ rest).
Proof.
  assert (Hp : String.prefix placeholder (placeholder +:+ post) = true)
    by (by rewrite prefix_app_long).
  change (placeholder +:+ post) with (String "$" ("{workspaceFolder}" +:+ post)) in *.
  cbn [SimpleTemplate_renderFrom]. rewrite Hp. reflexivity.
Qed.

Lemma renderFrom_app wf post pre (skip : nat) :
  skip <= String.length pre ->
  SimpleTemplate_renderFrom skip (pre +:+ placeholder +:+ post) wf
  = a ← SimpleTemplate_renderFrom skip pre wf;
    b ← wf ();
    c ← SimpleTemplate_renderFrom 0 post wf;
    Normal (a +:+ b +:+ c).
Proof.
  revert skip. induction pre as [|ch pre IH]; intros skip Hskip.
  - assert (skip = 0) as -> by (simpl in Hskip; lia).
    change (EmptyString +:+ placeholder +:+ post) with (placeholder +:+ post).
    rewrite renderFrom_placeholder. simpl.
    destruct (wf ()); [|reflexivity]. simpl.
    by destruct (SimpleTemplate_renderFrom 0 post wf).
  - change (String ch pre +:+ placeholder +:+ post)
      with (String ch (pre +:+ placeholder +:+ post)).
    destruct skip as [|k].
    + cbn [SimpleTemplate_renderFrom].
      change (String ch (pre +:+ placeholder +:+ post))
        with (String ch pre +:+ placeholder +:+ post).
      destruct (decide (String.length placeholder <= String.length (String ch pre)))
        as [Hlong|Hshort].
      * rewrite prefix_app_long by exact Hlong.
        destruct (String.prefix placeholder (String ch pre)) eqn:Hp.
        -- rewrite IH by (simpl in Hlong |- *; lia).
           destruct (wf ()) as [root|e]; [|reflexivity]. simpl.
           destruct (SimpleTemplate_renderFrom _ pre wf) as [a|e]; [|reflexivity]. simpl.
           destruct (SimpleTemplate_renderFrom 0 post wf) as [c|e]; [|reflexivity]. simpl.
           by rewrite append_assoc.
        -- rewrite IH by lia.
           destruct (SimpleTemplate_renderFrom 0 pre wf) as [a|e]; [|reflexivity]. simpl.
           destruct (wf ()) as [root|e]; [|reflexivity]. simpl.
           by destruct (SimpleTemplate_renderFrom 0 post wf).
      * rewrite placeholder_no_overlap by (simpl in Hshort |- *; lia).
        assert (String.prefix placeholder (String ch pre) = false) as ->.
        { destruct (String.prefix placeholder (String ch pre)) eqn:Hp; [|done].
          apply prefix_length in Hp. lia. }
        rewrite IH by lia.
        destruct (SimpleTemplate_renderFrom 0 pre wf) as [a|e]; [|reflexivity]. simpl.
        destruct (wf ()) as [root|e]; [|reflexivity]. simpl.
        by destruct (SimpleTemplate_renderFrom 0 post wf).
    + cbn [SimpleTemplate_renderFrom]. apply IH. simpl in Hskip. lia.
Qed.

(** With a folder that is known, rendering never fails. *)
Lemma renderFrom_known (root : string) str (skip : nat) :
  exists out, SimpleTemplate_renderFrom skip str (fun _ => Normal root) = Normal out.
Proof.
  revert skip. induction str as [|ch str IH]; intros skip; [by eexists|].
  cbn [SimpleTemplate_renderFrom]. destruct skip as [|k]; [|apply IH].
  destruct (String.prefix placeholder (String ch str)).
  - destruct (IH (String.length placeholder - 1)) as [out ->]. by eexists.
  - destruct (IH 0) as [out ->]. by eexists.
Qed.

(** With a folder that is not known, the only failure is the one raised for
    the placeholder. *)
Lemma renderFrom_unknown (e : Thrown) str (skip : nat) :
  SimpleTemplate_renderFrom skip str (fun _ => Throw e) = Throw e \/
  exists out, SimpleTemplate_renderFrom skip str (fun _ => Throw e) = Normal out.
Proof.
  revert skip. induction str as [|ch str IH]; intros skip; [right; by eexists|].
  cbn [SimpleTemplate_renderFrom]. destruct skip as [|k]; [|apply IH].
  destruct (String.prefix placeholder (String ch str)); [by left|].
  destruct (IH 0) as [->|[out ->]]; [by left | right; by eexists].
Qed.

End TemplateFacts.

Section TemplateClaims.
Import Js DiagramConfig.
Context `{JsNumber number}.
Context (getWorkspaceFolder : Uri -> option WorkspaceFolder).
Context (readFile : string -> Completion string).
Context (xmlFirstChildContent : string -> Completion string).
Implicit Types (this : DiagramConfig) (pre post str : string).

Lemma evaluateTemplate_unknown this str :
  getWorkspaceFolder (uri this) = None ->
  evaluateTemplate getWorkspaceFolder this str = Throw (Error noWorkspaceMessage) \/
  exists out, evaluateTemplate getWorkspaceFolder this str = Normal out.
Proof.
  intros Hnone. unfold evaluateTemplate, SimpleTemplate_render. rewrite Hnone.
  apply renderFrom_unknown.
Qed.

Lemma evaluateTemplate_app this pre post :
  evaluateTemplate getWorkspaceFolder this (pre +:+ placeholder +:+ post)
  = a ← evaluateTemplate getWorkspaceFolder this pre;
    b ← match getWorkspaceFolder (uri this) with
        | None => Throw (Error noWorkspaceMessage)
        | Some workspaceFolder => Normal (fsPath workspaceFolder)
        end;
    c ← evaluateTemplate getWorkspaceFolder this post;
    Normal (a +:+ b +:+ c).
Proof.
  unfold evaluateTemplate, SimpleTemplate_render. by rewrite renderFrom_app by lia.
Qed.

Lemma evaluateTemplate_placeholder_unknown this pre post :
  getWorkspaceFolder (uri this) = None ->
  evaluateTemplate getWorkspaceFolder this (pre +:+ placeholder +:+ post)
  = Throw (Error noWorkspaceMessage).
Proof.
  intros Hnone. rewrite evaluateTemplate_app, Hnone.
  by destruct (evaluateTemplate_unknown this pre Hnone) as [->|[out ->]].
Qed.

Lemma mapM_throw {A B} (f : A -> Completion B) (e : Thrown) (l : list A) (x : A) :
  (forall y, f y = Throw e \/ exists b, f y = Normal b) ->
  x ∈ l -> f x = Throw e -> mapM f l = Throw e.
Proof.
  intros Hf Hx Hfx. induction Hx as [x l|x y l _ IH]; simpl.
  - by rewrite Hfx.
  - destruct (Hf y) as [->|[b ->]]; [reflexivity|]. simpl. by rewrite IH.
Qed.

Lemma Promise_all_throw {A} (ps : list (Completion A)) (e : Thrown) :
  Throw e ∈ ps -> exists e', Promise_all ps = Throw e'.
Proof.
  unfold Promise_all. intros He.
  induction ps as [|p ps IH]; [by apply not_elem_of_nil in He|].
  simpl. destruct p as [a|e0]; [|by eexists]. simpl.
  apply elem_of_cons in He as [He|He]; [discriminate|].
  destruct (IH He) as [e' ->]. by eexists.
Qed.

Lemma Promise_all_first_rejection {A} (before after : list (Completion A)) (e : Thrown) :
  Forall (fun c => exists a, c = Normal a) before ->
  Promise_all (before ++ Throw e :: after) = Throw e.
Proof.
  unfold Promise_all. induction 1 as [|c before [a ->] _ IH]; [reflexivity|].
  cbn [app mapM]. by rewrite IH.
Qed.


End TemplateClaims.

(** ** Base64 *)

Section Base64Facts.
Import Js.

Lemma unbase64_base64Char (x : Sextet) : unbase64 (base64Char x) = Some x.
Proof. destruct x as [[[[[[] []] []] []] []] []]; reflexivity. Qed.

Lemma sextets_base64Char (x : Sextet) (s : string) :
  sextets (String (base64Char x) s) = x :: sextets s.
Proof. simpl. by rewrite unbase64_base64Char. Qed.

Lemma list_ind3 {A} (P : list A -> Prop) :
  P [] -> (forall a, P [a]) -> (forall a b, P [a; b]) ->
  (forall a b c l, P l -> P (a :: b :: c :: l)) ->
  forall l, P l.
Proof.
  intros H0 H1 H2 H3.
  assert (Hall : forall l, P l /\ (forall a, P (a :: l)) /\ (forall a b, P (a :: b :: l))).
  { induction l as [|x l (IH0 & IH1 & IH2)]; [by auto|].
    split; [apply IH1|]. split; [intros a; apply IH2|]. intros a b. by apply H3. }
  intros l. apply Hall.
Qed.

Lemma base64Decode_base64Encode (bs : Buffer) : base64Decode (base64Encode bs) = bs.
Proof.
  unfold base64Decode. induction bs as [|a|a b|a b c r IH] using list_ind3.
  - reflexivity.
  - cbn [base64Encode]. pose proof (Byte.of_bits_to_bits a) as Ea.
    destruct (Byte.to_bits a) as (a0 & a1 & a2 & a3 & a4 & a5 & a6 & a7).
    rewrite !sextets_base64Char, <- Ea. reflexivity.
  - cbn [base64Encode].
    pose proof (Byte.of_bits_to_bits a) as Ea. pose proof (Byte.of_bits_to_bits b) as Eb.
    destruct (Byte.to_bits a) as (a0 & a1 & a2 & a3 & a4 & a5 & a6 & a7).
    destruct (Byte.to_bits b) as (b0 & b1 & b2 & b3 & b4 & b5 & b6 & b7).
    rewrite !sextets_base64Char, <- Ea, <- Eb. reflexivity.
  - cbn [base64Encode].
    pose proof (Byte.of_bits_to_bits a) as Ea. pose proof (Byte.of_bits_to_bits b) as Eb.
    pose proof (Byte.of_bits_to_bits c) as Ec.
    destruct (Byte.to_bits a) as (a0 & a1 & a2 & a3 & a4 & a5 & a6 & a7).
    destruct (Byte.to_bits b) as (b0 & b1 & b2 & b3 & b4 & b5 & b6 & b7).
    destruct (Byte.to_bits c) as (c0 & c1 & c2 & c3 & c4 & c5 & c6 & c7).
    rewrite !sextets_base64Char. cbn [bytesOfSextets]. by rewrite IH, Ea, Eb, Ec.
Qed.

End Base64Facts.

(** ** JSON texts of string records *)

Section JsonFacts.
Import Js.

Lemma parseStringChars_quoteChar (c : ascii) (t u rest : string) :
  parseStringChars t = Some (u, rest) ->
  parseStringChars (quoteChar c +:+ t) = Some (String c u, rest).
Proof.
  intros Ht.
  destruct c as [[] [] [] [] [] [] [] []];
    match goal with
    | |- parseStringChars (quoteChar ?c +:+ t) = _ =>
        change (parseStringChars t ≫= (fun '(t', r) => Some (String c t', r))
                = Some (String c u, rest))
    end;
    by rewrite Ht.
Qed.

Lemma parseStringChars_quoteChars (s rest : string) :
  parseStringChars (quoteChars s +:+ String dquote rest) = Some (s, rest).
Proof.
  induction s as [|c s IH]; [reflexivity|].
  change (quoteChars (String c s)) with (quoteChar c +:+ quoteChars s).
  rewrite append_assoc. by apply parseStringChars_quoteChar.
Qed.

Lemma QuoteJSONString_app (s rest : string) :
  QuoteJSONString s +:+ rest = String dquote (quoteChars s +:+ String dquote rest).
Proof. unfold QuoteJSONString. by rewrite append_String, append_assoc. Qed.

Section WithNumbers.
Context `{JsNumber number}.
Implicit Types (m : list (string * string)) (acc : JsObject number).

Lemma parseValue_string (fuel : nat) (s rest : string) :
  parseValue (S fuel) (QuoteJSONString s +:+ rest) = Some (JString s, rest).
Proof.
  rewrite QuoteJSONString_app.
  change (parseStringChars (quoteChars s +:+ String dquote rest)
            ≫= (fun '(str, r1) => Some (JString (number := number) str, r1))
          = Some (JString s, rest)).
  by rewrite parseStringChars_quoteChars.
Qed.

Lemma serializeMembers_record m :
  serializeMembers SerializeJSONProperty (prod_map id (JString (number := number)) <$> m)
  = memberText <$> m.
Proof.
  induction m as [|[k w] m IH]; [reflexivity|].
  cbn [fmap list_fmap prod_map serializeMembers SerializeJSONProperty fst snd id] in *.
  by rewrite IH.
Qed.

Lemma JSON_stringify_record m :
  JSON_stringify (number := number) (DiagramConfig.Record_js m)
  = Some ("{" +:+ joinComma (memberText <$> m) +:+ "}").
Proof.
  unfold JSON_stringify, DiagramConfig.Record_js. cbn [SerializeJSONProperty].
  by rewrite serializeMembers_record.
Qed.

Lemma parseMembers_member (value : string -> option (JsValue number * string))
    (fuel : nat) acc (kv : string * string) (rest : string) :
  (forall s r, value (QuoteJSONString s +:+ r) = Some (JString s, r)) ->
  parseMembers value (S fuel) acc (memberText kv +:+ rest)
  = match skipWhitespace rest with
    | String ","%char r4 => parseMembers value fuel (addMember acc kv) r4
    | String "}"%char r4 => Some (addMember acc kv, r4)
    | _ => None
    end.
Proof.
  intros Hvalue. unfold memberText. rewrite !append_assoc, QuoteJSONString_app.
  change (parseMembers value (S fuel) acc
            (String dquote (quoteChars kv.1
               +:+ String dquote (":" +:+ QuoteJSONString kv.2 +:+ rest))))
    with (parseStringChars (quoteChars kv.1
               +:+ String dquote (":" +:+ QuoteJSONString kv.2 +:+ rest))
          ≫= (fun '(key, r1) =>
                match skipWhitespace r1 with
                | String ":"%char r2 =>
                    value r2 ≫= (fun '(v, r3) =>
                      let acc := setProp acc key v in
                      match skipWhitespace r3 with
                      | String ","%char r4 => parseMembers value fuel acc r4
                      | String "}"%char r4 => Some (acc, r4)
                      | _ => None
                      end)
                | _ => None
                end)).
  rewrite parseStringChars_quoteChars.
  change (value (QuoteJSONString kv.2 +:+ rest) ≫= (fun '(v, r3) =>
            let acc := setProp acc kv.1 v in
            match skipWhitespace r3 with
            | String ","%char r4 => parseMembers value fuel acc r4
            | String "}"%char r4 => Some (acc, r4)
            | _ => None
            end)
          = match skipWhitespace rest with
            | String ","%char r4 => parseMembers value fuel (addMember acc kv) r4
            | String "}"%char r4 => Some (addMember acc kv, r4)
            | _ => None
            end).
  by rewrite Hvalue.
Qed.

Lemma parseMembers_record (value : string -> option (JsValue number * string))
    m (fuel : nat) acc (tail : string) :
  (forall s r, value (QuoteJSONString s +:+ r) = Some (JString s, r)) ->
  m ≠ [] -> length m <= fuel ->
  parseMembers value fuel acc (joinComma (memberText <$> m) +:+ String "}" tail)
  = Some (foldl addMember acc m, tail).
Proof.
  intros Hvalue. revert fuel acc.
  induction m as [|kv m IH]; intros fuel acc Hne Hfuel; [done|].
  destruct fuel as [|fuel]; [simpl in Hfuel; lia|].
  destruct m as [|kv' m].
  - change (joinComma (memberText <$> [kv])) with (memberText kv).
    by rewrite parseMembers_member.
  - change (joinComma (memberText <$> kv :: kv' :: m))
      with (memberText kv +:+ "," +:+ joinComma (memberText <$> kv' :: m)).
    rewrite !append_assoc, parseMembers_member by exact Hvalue.
    change (skipWhitespace ("," +:+ joinComma (memberText <$> kv' :: m) +:+ String "}" tail))
      with (String ","%char (joinComma (memberText <$> kv' :: m) +:+ String "}" tail)).
    cbv iota beta. rewrite IH; [reflexivity | done | simpl in *; lia].
Qed.

Lemma setProp_fresh acc (k : string) (w : JsValue number) :
  k ∉ acc.*1 -> setProp acc k w = acc ++ [(k, w)].
Proof.
  induction acc as [|[k' w'] acc IH]; intros Hk; [reflexivity|].
  cbn [setProp]. rewrite fmap_cons, not_elem_of_cons in Hk. cbn [fst] in Hk.
  destruct Hk as [Hne Hk].
  assert (String.eqb k' k = false) as -> by (apply String.eqb_neq; congruence).
  by rewrite IH.
Qed.

Lemma foldl_addMember m acc :
  NoDup (acc.*1 ++ m.*1) ->
  foldl addMember acc m = acc ++ (prod_map id JString <$> m).
Proof.
  revert acc. induction m as [|[k w] m IH]; intros acc Hnd.
  - by rewrite app_nil_r.
  - cbn [foldl]. unfold addMember at 2. cbn [fst snd].
    rewrite setProp_fresh.
    + rewrite IH.
      * by rewrite <- app_assoc.
      * rewrite fmap_app. cbn [fmap list_fmap fst]. rewrite <- app_assoc. exact Hnd.
    + apply NoDup_app in Hnd as (_ & Hdisj & _). intros Hin.
      apply (Hdisj k Hin). cbn [fmap list_fmap fst]. apply list_elem_of_here.
Qed.

Lemma length_memberText (kv : string * string) : 1 <= String.length (memberText kv).
Proof. unfold memberText. rewrite QuoteJSONString_app. simpl. lia. Qed.

Lemma length_joinComma m :
  length m <= String.length (joinComma (memberText <$> m)).
Proof.
  induction m as [|kv m IH]; [simpl; lia|].
  destruct m as [|kv' m].
  - apply length_memberText.
  - change (joinComma (memberText <$> kv :: kv' :: m))
      with (memberText kv +:+ "," +:+ joinComma (memberText <$> kv' :: m)).
    rewrite !length_append. pose proof (length_memberText kv). simpl in *. lia.
Qed.

Lemma JSON_parse_record m :
  NoDup m.*1 ->
  JSON_parse ("{" +:+ joinComma (memberText <$> m) +:+ "}")
  = Normal (DiagramConfig.Record_js (number := number) m).
Proof.
  intros Hnd. unfold JSON_parse.
  set (text := "{" +:+ joinComma (memberText <$> m) +:+ "}").
  assert (Hfuel : length m < String.length text).
  { subst text. rewrite append_String, append_Empty. cbn [String.length].
    rewrite length_append. pose proof (length_joinComma m). lia. }
  destruct (String.length text) as [|fuel]; [lia|].
  destruct m as [|kv m]; [reflexivity|].
  assert (Hmem : parseMembers (parseValue (S fuel)) (S fuel) []
                   (joinComma (memberText <$> kv :: m) +:+ String "}" EmptyString)
                 = Some (foldl addMember [] (kv :: m), EmptyString)).
  { apply parseMembers_record; [intros s r; apply parseValue_string | done |].
    simpl in *. lia. }
  assert (Hstart : exists x,
            joinComma (memberText <$> kv :: m) +:+ String "}" EmptyString = String dquote x).
  { destruct m as [|kv' m].
    - change (joinComma (memberText <$> [kv])) with (memberText kv).
      unfold memberText. rewrite !append_assoc, QuoteJSONString_app. by eexists.
    - change (joinComma (memberText <$> kv :: kv' :: m))
        with (memberText kv +:+ "," +:+ joinComma (memberText <$> kv' :: m)).
      unfold memberText. rewrite !append_assoc, QuoteJSONString_app. by eexists. }
  destruct Hstart as [x Hx].
  subst text. rewrite append_String, append_Empty.
  change "}" with (String "}" EmptyString) at 1. rewrite Hx in Hmem |- *.
  change (parseValue (S (S fuel)) (String "{" (String dquote x)))
    with (parseMembers (parseValue (S fuel)) (S fuel) [] (String dquote x)
          ≫= (fun '(ps, r1) => Some (JObject ps, r1))).
  rewrite Hmem. cbn [mbind option_bind]. cbn [skipWhitespace isEmpty].
  rewrite foldl_addMember by exact Hnd. reflexivity.
Qed.

End WithNumbers.

End JsonFacts.

(** ** Local storage *)

Section LocalStorageFacts.
Import Js DiagramConfig.
Context `{JsNumber number}.
Context (mapObject :
  JsValue number -> (JsValue number -> JsValue number) -> Completion (JsValue number)).

Lemma deserialize_string (stored : string) :
  deserialize mapObject (JString stored)
  = JSON_parse (Buffer_toString_utf8 (base64Decode stored)).
Proof. unfold deserialize. by destruct stored. Qed.

(** C7: outside the development encoding, what the serializer of
    [local-storage] persists for a string-to-string record is a string, the
    base64 text of its JSON encoding, and deserializing that string yields
    the record again. *)
Theorem localStorage_roundtrip (val : list (string * string)) :
  NoDup val.*1 ->
  exists text stored,
    JSON_stringify (Record_js (number := number) val) = Some text /\
    stored = base64Encode (Buffer_from_utf8 text) /\
    serializer mapObject false val = Normal (JString stored) /\
    deserialize mapObject (JString stored) = Normal (Record_js val) /\
    serializer mapObject false val ≫= deserialize mapObject = Normal (Record_js val).
Proof.
  intros Hnd. eexists _, _. split; [apply JSON_stringify_record|].
  split; [reflexivity|].
  assert (Hser : serializer mapObject false val
                 = Normal (JString (base64Encode (Buffer_from_utf8
                     ("{" +:+ joinComma (memberText <$> val) +:+ "}"))))).
  { unfold serializer. by rewrite JSON_stringify_record. }
  assert (Hde : deserialize mapObject
                  (JString (base64Encode (Buffer_from_utf8
                     ("{" +:+ joinComma (memberText <$> val) +:+ "}"))))
                = Normal (Record_js val)).
  { rewrite deserialize_string, base64Decode_base64Encode.
    unfold Buffer_toString_utf8, Buffer_from_utf8.
    rewrite string_of_list_byte_of_string. by apply JSON_parse_record. }
  split; [exact Hser|]. split; [exact Hde|].
  rewrite Hser. exact Hde.
Qed.

End LocalStorageFacts.

Section LocalStorageRuns.
Import Js DiagramConfig.

Lemma localStorage_roundtrip_witness :
  let val := [(".drawio-config", "1"); ("path", "C:\tmp"); ("empty", EmptyString)] in
  NoDup val.*1 /\
  serializer (number := Z) mapObjectValues false [("a", "1")]
  = Normal (JString "eyJhIjoiMSJ9") /\
  serializer (number := Z) mapObjectValues false val ≫= deserialize mapObjectValues
  = Normal (Record_js val).
Proof.
  intros val.
  assert (Hnd : NoDup val.*1).
  { subst val. compute_done. }
  split; [exact Hnd|]. split; [reflexivity|].
  destruct (localStorage_roundtrip (number := Z) mapObjectValues val Hnd)
    as (text & stored & _ & _ & _ & _ & Hround).
  exact Hround.
Defined.

End LocalStorageRuns.

Section TemplateRuns.
Import Js DiagramConfig.



End TemplateRuns.

(** * Further properties *)

(** ** The session model along a feed *)

Section SessionModelFeeds.
Import Js SessionModel.
Context `{HN : JsNumber number}.
Implicit Types (s : SessionModel number) (p q : number) (v w : JsValue number)
  (updates : list (SessionModelUpdate number)).

Lemma applyAll_snoc s updates (u : SessionModelUpdate number) :
  applyAll s (updates ++ [u]) = apply (applyAll s updates) u.
Proof. unfold applyAll. by rewrite foldl_app. Qed.

Lemma apply_lookup_ne s p q v :
  q ≠ p ->
  entries (viewStatesByPeerId (apply s (updateViewState p v))) !! q
  = entries (viewStatesByPeerId s) !! q.
Proof.
  intros Hqp. rewrite apply_updateViewState. case_decide; [|done].
  simpl. by rewrite lookup_insert_ne.
Qed.

(** An [updateViewState] either changes nothing or stores and reports the
    candidate. *)
Lemma apply_cases s p v :
  apply s (updateViewState p v) = s /\
    stringifyEntry (entries (viewStatesByPeerId s) !! p) = stringifyEntry (Some (newVal p v))
  \/
  apply s (updateViewState p v)
  = {| viewStatesByPeerId := ObservableMap_set (viewStatesByPeerId s) p (newVal p v) |} /\
    stringifyEntry (entries (viewStatesByPeerId s) !! p) ≠ stringifyEntry (Some (newVal p v)).
Proof.
  rewrite apply_updateViewState. case_decide as Hd; [by right | by left].
Qed.

(** X1: in every state reached from the empty model, each entry is stored
    under its own peer id, and so is every change that was reported. *)
Theorem applyAll_keys_are_peer_ids updates :
  let s := applyAll new updates in
  (forall k e, entries (viewStatesByPeerId s) !! k = Some e -> peerId e = k) /\
  Forall (fun ke => peerId ke.2 = ke.1) (reported (viewStatesByPeerId s)).
Proof.
  induction updates as [|u updates IH] using rev_ind.
  - split; [intros k e Hk; by destruct (lookup_empty_Some (M := gmap number) k e) | constructor].
  - cbv zeta in *. rewrite applyAll_snoc. destruct IH as [IHe IHr].
    destruct u as [p v|p|p c]; [|done..].
    destruct (apply_cases (applyAll new updates) p v) as [[-> _]|[-> _]]; [done|].
    simpl. split.
    + intros k e. destruct (decide (p = k)) as [->|Hne].
      * rewrite lookup_insert_eq. by intros [= <-].
      * rewrite lookup_insert_ne by done. apply IHe.
    + apply Forall_app. split; [exact IHr | by repeat constructor].
Qed.

(** X2: in every state reached from the empty model, the map is exactly what
    the reported changes add up to: an observer that replays them holds the
    same entries. *)
Theorem applyAll_entries_replay updates :
  entries (viewStatesByPeerId (applyAll new updates))
  = replay (reported (viewStatesByPeerId (applyAll new updates))).
Proof.
  induction updates as [|u updates IH] using rev_ind; [reflexivity|].
  rewrite applyAll_snoc. destruct u as [p v|p|p c]; [|done..].
  destruct (apply_cases (applyAll new updates) p v) as [[-> _]|[-> _]]; [done|].
  simpl. unfold replay in *. by rewrite foldl_app, <- IH.
Qed.

(** X3: after a feed, the entry of a peer has the JSON text of the last view
    state the feed carried for that peer; a peer the feed does not mention
    keeps the entry it had. *)
Theorem applyAll_last_update_wins s p updates :
  match last (viewStatesFor p updates) with
  | Some v =>
      stringifyEntry (entries (viewStatesByPeerId (applyAll s updates)) !! p)
      = stringifyEntry (Some (newVal p v))
  | None =>
      entries (viewStatesByPeerId (applyAll s updates)) !! p
      = entries (viewStatesByPeerId s) !! p
  end.
Proof.
  induction updates as [|u updates IH] using rev_ind; [reflexivity|].
  rewrite applyAll_snoc. unfold viewStatesFor in *. rewrite omap_app.
  destruct u as [q w|q|q c]; cbn [omap list_omap]; rewrite ?app_nil_r; [|exact IH..].
  destruct (decide (q = p)) as [->|Hne]; cbn [app].
  - rewrite last_snoc. apply apply_stored_text.
  - rewrite app_nil_r, apply_lookup_ne by done. exact IH.
Qed.

Lemma apply_dom_updateViewState s p v :
  dom (entries (viewStatesByPeerId (apply s (updateViewState p v))))
  = {[p]} ∪ dom (entries (viewStatesByPeerId s)).
Proof.
  destruct (apply_cases s p v) as [[-> Heq]|[-> _]].
  - destruct (entries (viewStatesByPeerId s) !! p) as [e|] eqn:He.
    + apply elem_of_dom_2 in He. symmetry. apply subseteq_union_1_L.
      by apply singleton_subseteq_l.
    + by destruct (stringifyEntry_None_ne (newVal p v)).
  - simpl. by rewrite dom_insert_L.
Qed.

(** X4: the peers of the map after a feed are the peers it had before
    together with the peers for which the feed carried an
    [updateViewState]; no other update kind creates an entry. *)
Theorem applyAll_peers s updates :
  dom (entries (viewStatesByPeerId (applyAll s updates)))
  = dom (entries (viewStatesByPeerId s))
    ∪ list_to_set (omap (fun u => match u with
                                  | updateViewState q _ => Some q
                                  | _ => None
                                  end) updates).
Proof.
  induction updates as [|u updates IH] using rev_ind.
  - cbn [omap list_omap list_to_set]. by rewrite (right_id_L ∅ (∪)).
  - rewrite applyAll_snoc, omap_app, list_to_set_app_L.
    destruct u as [q w|q|q c]; cbn [omap list_omap list_to_set].
    + rewrite apply_dom_updateViewState, IH. apply set_eq. intros k.
      rewrite !elem_of_union, elem_of_singleton, elem_of_empty. tauto.
    + change (apply (applyAll s updates) (removePeer q)) with (applyAll s updates).
      by rewrite IH, (right_id_L ∅ (∪)).
    + change (apply (applyAll s updates) (updateCursor q c)) with (applyAll s updates).
      by rewrite IH, (right_id_L ∅ (∪)).
Qed.

(** X5: updates for two different peers can be applied in either order:
    [get] then answers the same for every peer, and the number of reported
    changes is the same.  (The order in which the map iterates over its
    peers is not represented and may differ.) *)
Theorem apply_commute s p q v w :
  p ≠ q ->
  let s1 := apply (apply s (updateViewState p v)) (updateViewState q w) in
  let s2 := apply (apply s (updateViewState q w)) (updateViewState p v) in
  (forall k, ObservableMap_get (viewStatesByPeerId s1) k
             = ObservableMap_get (viewStatesByPeerId s2) k) /\
  length (reported (viewStatesByPeerId s1)) = length (reported (viewStatesByPeerId s2)).
Proof.
  intros Hpq s1 s2. subst s1 s2. unfold ObservableMap_get.
  rewrite (apply_updateViewState (apply s (updateViewState p v)) q w).
  rewrite (apply_updateViewState (apply s (updateViewState q w)) p v).
  rewrite (apply_lookup_ne s p q v) by done.
  rewrite (apply_lookup_ne s q p w) by done.
  rewrite !apply_updateViewState.
  repeat case_decide; simpl; rewrite ?length_app; split; try done; try lia.
  intros k. by rewrite insert_insert_ne.
Qed.

End SessionModelFeeds.

(** ** The comparison on typed view states *)

Section TypedViewStates.
Import Js SessionModel.
Context `{HN : JsNumber number}.
Implicit Types (p : number) (d : ViewStateData number) (ids : list string).

Lemma QuoteJSONString_inj_app (s s' r r' : string) :
  QuoteJSONString s +:+ r = QuoteJSONString s' +:+ r' -> s = s' /\ r = r'.
Proof.
  rewrite !QuoteJSONString_app. intros [= Heq].
  pose proof (parseStringChars_quoteChars s r) as Hs.
  rewrite Heq, parseStringChars_quoteChars in Hs. by injection Hs as -> ->.
Qed.

Lemma QuoteJSONString_head (s r : string) :
  exists x, QuoteJSONString s +:+ r = String dquote x.
Proof. rewrite QuoteJSONString_app. by eexists. Qed.

Lemma joinComma_cons2 (x y : string) (l : list string) :
  joinComma (x :: y :: l) = x +:+ "," +:+ joinComma (y :: l).
Proof. reflexivity. Qed.

Lemma joinComma_quoted_inj ids ids' (t t' : string) :
  joinComma (List.map QuoteJSONString ids) +:+ String "]" t
  = joinComma (List.map QuoteJSONString ids') +:+ String "]" t' ->
  ids = ids' /\ t = t'.
Proof.
  revert ids'. induction ids as [|x ids IH]; intros [|x' ids'] Heq.
  - by injection Heq as ->.
  - exfalso. destruct ids' as [|y' ids']; cbn [List.map] in Heq.
    + destruct (QuoteJSONString_head x' (String "]" t')) as [z Hz].
      change (joinComma [QuoteJSONString x']) with (QuoteJSONString x') in Heq.
      rewrite Hz in Heq. discriminate Heq.
    + rewrite joinComma_cons2, !append_assoc in Heq.
      destruct (QuoteJSONString_head x'
                  ("," +:+ joinComma (QuoteJSONString y' :: List.map QuoteJSONString ids')
                   +:+ String "]" t')) as [z Hz].
      rewrite Hz in Heq. discriminate Heq.
  - exfalso. destruct ids as [|y ids]; cbn [List.map] in Heq.
    + destruct (QuoteJSONString_head x (String "]" t)) as [z Hz].
      change (joinComma [QuoteJSONString x]) with (QuoteJSONString x) in Heq.
      rewrite Hz in Heq. discriminate Heq.
    + rewrite joinComma_cons2, !append_assoc in Heq.
      destruct (QuoteJSONString_head x
                  ("," +:+ joinComma (QuoteJSONString y :: List.map QuoteJSONString ids)
                   +:+ String "]" t)) as [z Hz].
      rewrite Hz in Heq. discriminate Heq.
  - destruct ids as [|y ids], ids' as [|y' ids']; cbn [List.map] in Heq.
    + change (joinComma [QuoteJSONString x]) with (QuoteJSONString x) in Heq.
      change (joinComma [QuoteJSONString x']) with (QuoteJSONString x') in Heq.
      apply QuoteJSONString_inj_app in Heq as [-> [= ->]]. done.
    + exfalso. rewrite joinComma_cons2, !append_assoc in Heq.
      change (joinComma [QuoteJSONString x]) with (QuoteJSONString x) in Heq.
      apply QuoteJSONString_inj_app in Heq as [_ Heq]. discriminate Heq.
    + exfalso. rewrite joinComma_cons2, !append_assoc in Heq.
      change (joinComma [QuoteJSONString x']) with (QuoteJSONString x') in Heq.
      apply QuoteJSONString_inj_app in Heq as [_ Heq]. discriminate Heq.
    + rewrite !joinComma_cons2, !append_assoc in Heq.
      apply QuoteJSONString_inj_app in Heq as [-> Heq].
      rewrite !append_String, !append_Empty in Heq. injection Heq as Heq.
      apply (IH (y' :: ids')) in Heq as [Hids ->].
      by rewrite Hids.
Qed.

Lemma joinComma_singleton (x : string) : joinComma [x] = x.
Proof. reflexivity. Qed.

Lemma map_element_strings ids :
  List.map (fun e : JsValue number => default "null" (SerializeJSONProperty e))
    (JString <$> ids)
  = List.map QuoteJSONString ids.
Proof. induction ids as [|x ids IH]; [reflexivity|]. cbn. by rewrite <- IH. Qed.

Ltac entry_text H :=
  unfold stringifyEntry, JSON_stringify, newVal, Entry_js, ViewState_js in H;
  cbn [from_option peerId viewState activeUri currentCursor selectedCellIds
       Point_js SerializeJSONProperty serializeMembers] in H;
  repeat rewrite map_element_strings in H;
  repeat rewrite joinComma_cons2 in H;
  repeat rewrite joinComma_singleton in H;
  repeat rewrite append_assoc in H;
  injection H as H.

Ltac peel H := repeat (apply (inj (String.append _)) in H).

(** The comparison never confuses two typed view states that have the same
    cursor: equal JSON texts mean equal view states. *)
Lemma stringifyEntry_typed_inj p (a b : ViewState number) :
  a ≫= currentCursor = b ≫= currentCursor ->
  stringifyEntry (Some (newVal p (ViewState_js a)))
  = stringifyEntry (Some (newVal p (ViewState_js b))) ->
  a = b.
Proof.
  intros Hcursor Htext.
  destruct a as [[uri c ids]|], b as [[uri' c' ids']|];
    cbn [mbind option_bind currentCursor] in Hcursor; subst; [| | |done].
  - f_equal. destruct c' as [c|]; entry_text Htext; peel Htext;
      apply QuoteJSONString_inj_app in Htext as [-> Htext]; peel Htext;
      change ("]" +:+ "}" +:+ "}") with (String "]" "}}") in Htext;
      by apply joinComma_quoted_inj in Htext as [-> _].
  - exfalso. entry_text Htext. peel Htext. discriminate Htext.
  - exfalso. entry_text Htext. peel Htext. discriminate Htext.
Qed.

Lemma stringifyEntry_Some_text (e : Entry number) :
  stringifyEntry (Some e) = JSON_stringify (Entry_js e).
Proof. reflexivity. Qed.

Lemma ObservableMap_set_changes (s : SessionModel number) p (e : Entry number) :
  {| viewStatesByPeerId := ObservableMap_set (viewStatesByPeerId s) p e |} ≠ s.
Proof.
  intros Heq. apply (f_equal (fun t => length (reported (viewStatesByPeerId t)))) in Heq.
  simpl in Heq. rewrite length_app in Heq. simpl in Heq. lia.
Qed.

(** C3 (amended): the comparison of [apply] is equality of the
    [JSON.stringify] texts of the stored and of the candidate entry: the
    update is a no-op exactly when the two texts are equal.  View states
    with equal field contents whose keys come in the same order have equal
    texts, so such an update collapses to a no-op; and on typed view states,
    whose keys come in the order of the declaration, with the same cursor
    the comparison is exact: the texts are equal exactly when the contents
    are. *)
Theorem comparison_is_text_equality (s : SessionModel number) p
    (e : Entry number) (b : JsValue number) :
  entries (viewStatesByPeerId s) !! p = Some e ->
  (apply s (updateViewState p b) = s <->
   JSON_stringify (Entry_js e)
   = JSON_stringify (Entry_js {| viewState := b; peerId := p |})) /\
  (peerId e = p -> sameContent eq (viewState e) b ->
   apply s (updateViewState p b) = s) /\
  (forall a a' : ViewState number,
     a ≫= currentCursor = a' ≫= currentCursor ->
     (JSON_stringify (Entry_js {| viewState := ViewState_js a; peerId := p |})
      = JSON_stringify (Entry_js {| viewState := ViewState_js a'; peerId := p |})
      <-> a = a')).
Proof.
  intros Hs.
  assert (Hiff : apply s (updateViewState p b) = s <->
                 JSON_stringify (Entry_js e)
                 = JSON_stringify (Entry_js {| viewState := b; peerId := p |})).
  { destruct (apply_cases s p b) as [[Hsame Htext]|[Hset Htext]];
      rewrite Hs, !stringifyEntry_Some_text in Htext.
    - split; [intros _; exact Htext | intros _; exact Hsame].
    - split; [|intros Heq; by destruct Htext].
      intros Hsame. rewrite Hset in Hsame. by apply ObservableMap_set_changes in Hsame. }
  split; [exact Hiff|]. split.
  - intros Hp Hab. apply sameContent_eq in Hab. apply Hiff.
    destruct e as [w q]. simpl in *. by subst.
  - intros a a' Hcursor. split; [|by intros ->].
    intros Htext. by apply (stringifyEntry_typed_inj p a a' Hcursor).
Qed.

(** X6: an update whose typed view state differs from the stored one in
    the active document or in the selection, the cursor being the same, is
    never taken for a repetition: it is stored and reported. *)
Theorem apply_typed_change_is_stored (s : SessionModel number) p (a b : ViewState number) :
  entries (viewStatesByPeerId s) !! p = Some (newVal p (ViewState_js a)) ->
  a ≫= currentCursor = b ≫= currentCursor ->
  a ≠ b ->
  apply s (updateViewState p (ViewState_js b))
  = {| viewStatesByPeerId :=
         ObservableMap_set (viewStatesByPeerId s) p (newVal p (ViewState_js b)) |}.
Proof.
  intros Hs Hcursor Hab.
  destruct (apply_cases s p (ViewState_js b)) as [[_ Htext]|[Hset _]]; [|exact Hset].
  rewrite Hs in Htext. by apply stringifyEntry_typed_inj in Htext.
Qed.

End TypedViewStates.

(** ** The bridge: what a call leaves untouched *)

Section BridgeFrames.
Import Js CustomDrawioInstance.
Context {number DrawioInstance : Type}.
Context (sendCustomActionExpectResponse :
  JsObject number -> DrawioInstance -> Completion (JsObject number) * DrawioInstance).
Context (super_handleEvent :
  JsObject number -> DrawioInstance -> Completion unit * DrawioInstance).
Implicit Types (this : CustomDrawioInstance number DrawioInstance) (evt : JsObject number).

(** X7: [getVertices] passes a rejection of the request on unchanged, never
    fires a notification, and leaves the inherited part as the request left
    it. *)
Theorem getVertices_rejected this (e : Thrown) (base' : DrawioInstance) :
  sendCustomActionExpectResponse [("action", JString "getVertices")] (base this)
  = (Throw e, base') ->
  getVertices sendCustomActionExpectResponse this
  = (Throw e, {| base := base'; emitted := emitted this |}).
Proof. intros Hsend. unfold getVertices. by rewrite Hsend. Qed.

Lemma existsb_isString_false (tag : JsValue number) :
  existsb (isString tag) customEvents = false ->
  isString tag "nodeSelected" = false /\ isString tag "pluginLoaded" = false /\
  isString tag "focusChanged" = false /\ isString tag "cursorChanged" = false /\
  isString tag "selectionChanged" = false.
Proof.
  unfold customEvents. cbn [existsb]. rewrite !orb_false_iff. tauto.
Qed.

(** X8: [handleEvent] only ever appends to what was delivered: an event
    whose tag is one of the five adds exactly one notification, completes
    normally and leaves the inherited part alone; any other event, also one
    without a tag or with a tag that is not a string, adds none and leaves
    the inherited part as the inherited handler left it. *)
Theorem handleEvent_appends evt this :
  let after := handleEvent super_handleEvent evt this in
  if existsb (isString (getProp evt "event")) customEvents
  then exists n, emitted after.2 = emitted this ++ [n] /\
                 base after.2 = base this /\ after.1 = Normal ()
  else emitted after.2 = emitted this /\
       base after.2 = (super_handleEvent evt (base this)).2 /\
       after.1 = (super_handleEvent evt (base this)).1.
Proof.
  intros after. subst after. unfold handleEvent.
  destruct (existsb (isString (getProp evt "event")) customEvents) eqn:Hex.
  - unfold customEvents in Hex. cbn [existsb] in Hex.
    repeat (destruct (isString (getProp evt "event") _); [by eexists|]).
    discriminate Hex.
  - apply existsb_isString_false in Hex as (-> & -> & -> & -> & ->).
    by destruct (super_handleEvent evt (base this)).
Qed.

End BridgeFrames.

(** ** Known plugins: other keys and repeated decisions *)

Section KnownPluginFacts.
Import Config.
Implicit Types (this : Config) (d : KnownPlugin) (l : list KnownPlugin).

Lemma sameKey_true pid fp d :
  sameKey pid fp d = true <-> pluginId d = pid /\ fingerprint d = fp.
Proof. unfold sameKey. by rewrite andb_true_iff, !String.eqb_eq. Qed.

Lemma find_filter_others pid fp pid' fp' l :
  (pid', fp') ≠ (pid, fp) ->
  List.find (sameKey pid' fp') (List.filter (fun d => negb (sameKey pid fp d)) l)
  = List.find (sameKey pid' fp') l.
Proof.
  intros Hne. induction l as [|d l IH]; [reflexivity|]. cbn [List.filter List.find].
  destruct (sameKey pid fp d) eqn:Hd; cbn [negb List.find].
  - destruct (sameKey pid' fp' d) eqn:Hd'; [|exact IH].
    apply sameKey_true in Hd as [<- <-]. apply sameKey_true in Hd' as [<- <-]. done.
  - by rewrite IH.
Qed.

Lemma stored_after_add this pid fp allow :
  VsCodeSetting_get [] (_knownPlugins (addKnownPlugin this pid fp allow))
  = List.filter (fun d => negb (sameKey pid fp d)) (VsCodeSetting_get [] (_knownPlugins this))
    ++ [{| pluginId := pid; fingerprint := fp; allowed := allow |}].
Proof. unfold addKnownPlugin. simpl. by rewrite filter_otherKey. Qed.

(** X9: a decision for one key changes the answer for no other key; in
    particular trusting a plugin under one fingerprint says nothing about
    the same plugin under another fingerprint. *)
Theorem addKnownPlugin_other_key this pid fp allow pid' fp' :
  (pid', fp') ≠ (pid, fp) ->
  isPluginAllowed (addKnownPlugin this pid fp allow) pid' fp'
  = isPluginAllowed this pid' fp'.
Proof.
  intros Hne. unfold isPluginAllowed. rewrite stored_after_add.
  assert (Hnew : sameKey pid' fp'
                   {| pluginId := pid; fingerprint := fp; allowed := allow |} = false).
  { destruct (sameKey pid' fp' _) eqn:Hk; [|done].
    apply sameKey_true in Hk as [Hp Hf]. simpl in Hp, Hf. by subst. }
  destruct (List.find (sameKey pid' fp') (VsCodeSetting_get [] (_knownPlugins this)))
    as [d|] eqn:Hfind.
  - assert (Hfind' : List.find (sameKey pid' fp')
                       (List.filter (fun d => negb (sameKey pid fp d))
                          (VsCodeSetting_get [] (_knownPlugins this))) = Some d)
      by (by rewrite find_filter_others).
    revert Hfind'.
    generalize (List.filter (fun d => negb (sameKey pid fp d))
                  (VsCodeSetting_get [] (_knownPlugins this))).
    intros l Hl. induction l as [|x l IH]; [discriminate|]. cbn [app List.find] in *.
    destruct (sameKey pid' fp' x); [by injection Hl as -> | by apply IH].
  - rewrite find_app_None by (by rewrite find_filter_others).
    cbn [List.find]. by rewrite Hnew.
Qed.

(** X10: of two decisions in a row for the same key only the later one is
    kept: the stored list is the one the later decision alone would have
    produced, so repeating decisions never makes the list grow. *)
Theorem addKnownPlugin_twice this pid fp (first second : bool) :
  addKnownPlugin (addKnownPlugin this pid fp first) pid fp second
  = addKnownPlugin this pid fp second.
Proof.
  unfold addKnownPlugin at 1 3. f_equal. unfold VsCodeSetting_set. f_equal. f_equal.
  rewrite filter_otherKey, stored_after_add, List.filter_app, filter_others_idem.
  cbn [List.filter]. rewrite sameKey_self. cbn [negb]. by rewrite app_nil_r, filter_otherKey.
Qed.

(** X11: [isPluginAllowed] answers from the stored list only: a decision it
    returns is the one of a stored entry with exactly that plugin id and
    fingerprint, and it returns [undefined] exactly when no stored entry has
    that key. *)
Theorem isPluginAllowed_stored this pid fp :
  match isPluginAllowed this pid fp with
  | Some answer =>
      exists d, d ∈ VsCodeSetting_get [] (_knownPlugins this) /\
                pluginId d = pid /\ fingerprint d = fp /\ allowed d = answer
  | None =>
      Forall (fun d => ~ (pluginId d = pid /\ fingerprint d = fp))
        (VsCodeSetting_get [] (_knownPlugins this))
  end.
Proof.
  unfold isPluginAllowed.
  destruct (List.find (sameKey pid fp) (VsCodeSetting_get [] (_knownPlugins this)))
    as [d|] eqn:Hfind.
  - apply List.find_some in Hfind as [Hin Hk]. apply sameKey_true in Hk as [Hp Hf].
    exists d. by rewrite list_elem_of_In.
  - apply Forall_forall. intros d Hd Hk. apply list_elem_of_In in Hd.
    apply (List.find_none _ _ Hfind) in Hd. apply sameKey_true in Hk. congruence.
Qed.

(** X18: the question is asked once per version: after [markAskedToTest]
    the version counts as asked, any other version does not, and neither
    does any version while nothing has been stored. *)
Theorem alreadyAskedToTest_per_version (version version' : string)
    (setting : VsCodeSetting (option string)) :
  alreadyAskedToTest version' (markAskedToTest version setting)
  = bool_decide (version' = version) /\
  alreadyAskedToTest version None = false.
Proof.
  split; [|reflexivity]. unfold alreadyAskedToTest, markAskedToTest. cbn.
  destruct (String.eqb_spec version version') as [->|Hne].
  - by rewrite bool_decide_eq_true_2.
  - by rewrite bool_decide_eq_false_2.
Qed.

End KnownPluginFacts.

(** ** Local storage: edge cases and the development encoding *)

Section LocalStorageEdges.
Import Js DiagramConfig.
Context `{HN : JsNumber number}.
Context (mapObject :
  JsValue number -> (JsValue number -> JsValue number) -> Completion (JsValue number)).
Implicit Types (val : list (string * string)) (value : JsValue number).

Lemma serializer_stored val :
  serializer mapObject false val
  = Normal (JString (base64Encode (Buffer_from_utf8
              ("{" +:+ joinComma (memberText <$> val) +:+ "}")))).
Proof. unfold serializer. by rewrite JSON_stringify_record. Qed.

Lemma deserialize_stored val :
  NoDup val.*1 ->
  deserialize mapObject
    (JString (base64Encode (Buffer_from_utf8
       ("{" +:+ joinComma (memberText <$> val) +:+ "}"))))
  = Normal (Record_js val).
Proof.
  intros Hnd. rewrite deserialize_string, base64Decode_base64Encode.
  unfold Buffer_toString_utf8, Buffer_from_utf8.
  rewrite string_of_list_byte_of_string. by apply JSON_parse_record.
Qed.

Lemma Record_js_inj val val' :
  Record_js (number := number) val = Record_js val' -> val = val'.
Proof.
  unfold Record_js. intros [= Heq]. revert val' Heq.
  induction val as [|[k w] val IH]; intros [|[k' w'] val'] Heq; try done.
  cbn in Heq. injection Heq as -> -> Heq. f_equal. by apply IH.
Qed.

(** X12: outside the development encoding the serializer never persists the
    same string for two different records. *)
Theorem serializer_injective val val' :
  NoDup val.*1 -> NoDup val'.*1 ->
  serializer mapObject false val = serializer mapObject false val' ->
  val = val'.
Proof.
  intros Hnd Hnd' Heq.
  pose proof (f_equal (fun c => c ≫= deserialize mapObject) Heq) as Hread.
  cbv beta in Hread. rewrite !serializer_stored in Hread.
  cbn [mbind Completion_bind] in Hread.
  rewrite !deserialize_stored in Hread by done.
  apply Record_js_inj. congruence.
Qed.

(** X13: [deserialize] has no default for a value that is missing: for
    [undefined], the empty string, [false] or a zero, [value || ""] is the
    empty text, and parsing it fails with a [SyntaxError]. *)
Theorem deserialize_missing value :
  typeof value ≠ TObject ->
  ToBoolean value = false ->
  deserialize mapObject value = Throw SyntaxError.
Proof.
  intros Hty Hfalse. unfold deserialize. rewrite Hfalse.
  by destruct value.
Qed.

Lemma tryJsonParse_not_json (v : string) (e : Thrown) :
  JSON_parse (number := number) v = Throw e ->
  stringifyItem (tryJsonParse v) = JString (number := number) v.
Proof. intros Hparse. unfold tryJsonParse. by rewrite Hparse. Qed.

(** X14: with a [mapObject] that maps the values of the properties, the
    development encoding persists a record whose values are not JSON texts
    as the plain object of the record, and reading it back yields the
    record. *)
Theorem localStorage_development_roundtrip val :
  (forall ps f, mapObject (JObject ps) f = Normal (JObject (prod_map id f <$> ps))) ->
  Forall (fun kv => exists e, JSON_parse (number := number) kv.2 = Throw e) val ->
  serializer mapObject true val = Normal (Record_js val) /\
  deserialize mapObject (Record_js val) = Normal (Record_js val).
Proof.
  intros Hmap Hval. unfold serializer, deserialize, Record_js.
  cbn [typeof]. rewrite !Hmap. cbn [mbind Completion_bind].
  split; do 2 f_equal.
  - induction Hval as [|[k w] val [e He] _ IH]; [reflexivity|].
    cbn [fmap list_fmap prod_map fst snd id] in *. rewrite IH. do 2 f_equal.
    unfold tryJsonParse. simpl in He. by rewrite He.
  - clear Hval. induction val as [|[k w] val IH]; [reflexivity|].
    cbn [fmap list_fmap prod_map fst snd id] in *. by rewrite IH.
Qed.

End LocalStorageEdges.

(** ** Plugins, custom libraries and the theme *)

Section SettingsFacts.
Import Js DiagramConfig.
Context `{HN : JsNumber number}.
Context (getWorkspaceFolder : Uri -> option WorkspaceFolder).
Context (readFile : string -> Completion string).
Context (xmlFirstChildContent : string -> Completion string).
Implicit Types (this : DiagramConfig) (str : string).

Lemma mapM_Normal {A B} (f : A -> Completion B) (l : list A) (ys : list B) :
  mapM f l = Normal ys -> Forall2 (fun x y => f x = Normal y) l ys.
Proof.
  revert ys. induction l as [|x l IH]; intros ys Hm; cbn [mapM] in Hm.
  - injection Hm as <-. constructor.
  - destruct (f x) as [y|e] eqn:Hx; [|discriminate]. cbn in Hm.
    destruct (mapM f l) as [ys'|e]; [|discriminate]. cbn in Hm.
    injection Hm as <-. constructor; [exact Hx | by apply IH].
Qed.

Lemma mapM_Throw {A B} (f : A -> Completion B) (l : list A) (e : Thrown) :
  mapM f l = Throw e -> exists x, x ∈ l /\ f x = Throw e.
Proof.
  induction l as [|x l IH]; intros Hm; cbn [mapM] in Hm; [discriminate|].
  destruct (f x) as [y|e'] eqn:Hx.
  - cbn in Hm. destruct (mapM f l) as [ys|e'']; [discriminate|]. cbn in Hm.
    injection Hm as ->. destruct (IH eq_refl) as (x' & Hin & Hx').
    exists x'. split; [by apply list_elem_of_further | exact Hx'].
  - cbn in Hm. injection Hm as ->. exists x. split; [apply list_elem_of_here | exact Hx].
Qed.

(** X15: when [plugins] succeeds it yields one entry per stored entry, in
    the same order, each holding the evaluation of the stored template; when
    it throws, the error is the one that evaluating the template of a stored
    entry throws. *)
Theorem plugins_outcome this :
  match plugins getWorkspaceFolder this with
  | Normal ps =>
      Forall2 (fun entry out =>
                 evaluateTemplate getWorkspaceFolder this (file entry) = Normal (file out))
        (VsCodeSetting_get [] (_plugins this)) ps
  | Throw e =>
      exists entry, entry ∈ VsCodeSetting_get [] (_plugins this) /\
                    evaluateTemplate getWorkspaceFolder this (file entry) = Throw e
  end.
Proof.
  unfold plugins.
  destruct (mapM _ (VsCodeSetting_get [] (_plugins this))) as [ps|e] eqn:Hm.
  - apply mapM_Normal in Hm. eapply Forall2_impl; [exact Hm|].
    intros entry out Hout. cbn beta in Hout.
    destruct (evaluateTemplate getWorkspaceFolder this (file entry)); [|discriminate].
    cbn in Hout. by injection Hout as <-.
  - apply mapM_Throw in Hm as (entry & Hin & Hentry). exists entry. split; [exact Hin|].
    destruct (evaluateTemplate getWorkspaceFolder this (file entry)) as [out|e'];
      [discriminate|].
    cbn in Hentry. by injection Hentry as ->.
Qed.

(** X16: when [customLibraries] resolves, it yields one description per
    stored library, in the same order, with the library name and the entry
    id of that library; a library given by a url keeps that url, and every
    other library carries a parsed value. *)
Theorem customLibraries_resolved this (ds : list (DrawioLibraryData (number := number))) :
  customLibraries getWorkspaceFolder readFile xmlFirstChildContent this = Normal ds ->
  Forall2 (fun lib d =>
             data_libName d = libName lib /\ data_entryId d = entryId lib /\
             match source lib with
             | SourceUrl url => data d = KindUrl url
             | _ => exists value, data d = KindValue value
             end)
    (VsCodeSetting_get [] (_customLibraries this)) ds.
Proof.
  unfold customLibraries, Promise_all. intros Hall. apply mapM_Normal in Hall.
  apply Forall2_fmap_l in Hall. eapply Forall2_impl; [exact Hall|].
  intros lib d Hd. cbn in Hd. unfold normalizeLib in Hd.
  destruct (source lib) as [xml|url|json|f].
  - unfold parseXml in Hd. destruct (xmlFirstChildContent xml) as [content|]; [|discriminate].
    cbn in Hd. destruct (JSON_parse content) as [w|]; [|discriminate].
    cbn in Hd. injection Hd as <-. cbn. eauto.
  - cbn in Hd. injection Hd as <-. cbn. eauto.
  - unfold parseJson in Hd. destruct (JSON_parse json) as [w|]; [|discriminate].
    cbn in Hd. injection Hd as <-. cbn. eauto.
  - destruct (evaluateTemplate getWorkspaceFolder this f) as [path|]; [|discriminate].
    cbn in Hd. destruct (readFile path) as [content|]; [|discriminate]. cbn in Hd.
    unfold parseJson, parseXml in Hd. destruct (endsWith path ".json").
    + destruct (JSON_parse content) as [w|]; [|discriminate].
      cbn in Hd. injection Hd as <-. cbn. eauto.
    + destruct (xmlFirstChildContent content) as [inner|]; [|discriminate]. cbn in Hd.
      destruct (JSON_parse inner) as [w|]; [|discriminate].
      cbn in Hd. injection Hd as <-. cbn. eauto.
Qed.

(** X17: the resolved theme is never the word [automatic]: a stored theme
    other than [automatic] is returned as it is, also right after
    [setTheme], and otherwise the theme is [dark] for a dark editor theme and
    [Kennedy] for a light or high-contrast one. *)
Theorem theme_resolved (_theme : VsCodeSetting string) (kind : ColorThemeKind)
    (value : string) :
  theme _theme kind ≠ "automatic" /\
  theme (setTheme value _theme) kind
  = (if decide (value = "automatic")
     then match kind with Dark => "dark" | _ => "Kennedy" end
     else value) /\
  theme None kind = match kind with Dark => "dark" | _ => "Kennedy" end.
Proof.
  split; [|split].
  - unfold theme. destruct (String.eqb_spec (VsCodeSetting_get "automatic" _theme) "automatic")
      as [->|Hne]; cbn [negb]; [by destruct kind | exact Hne].
  - unfold theme.
    change (VsCodeSetting_get "automatic" (setTheme value _theme)) with value.
    destruct (String.eqb_spec value "automatic") as [->|Hne]; cbn [negb].
    + rewrite decide_True by done. by destruct kind.
    + by rewrite decide_False by done.
  - by destruct kind.
Qed.

End SettingsFacts.

(** ** Runs of the further properties *)

Section FurtherRuns.
Import Js SessionModel CustomDrawioInstance DiagramConfig.

Lemma apply_commute_witness :
  (1 ≠ 2)%Z /\
  ObservableMap_get (viewStatesByPeerId
    (apply (apply new (updateViewState 1%Z JNull)) (updateViewState 2%Z JUndefined))) 2%Z
  = ObservableMap_get (viewStatesByPeerId
    (apply (apply new (updateViewState 2%Z JUndefined)) (updateViewState 1%Z JNull))) 2%Z.
Proof.
  split; [lia|].
  apply (apply_commute (number := Z) new 1%Z 2%Z JNull JUndefined). lia.
Defined.

Lemma comparison_is_text_equality_witness :
  let a : JsValue Z :=
    JObject [("activeUri", JString "file:///a.drawio"); ("selectedCellIds", JArray [])] in
  let b : JsValue Z :=
    JObject [("selectedCellIds", JArray []); ("activeUri", JString "file:///a.drawio")] in
  let s := apply new (updateViewState 1%Z a) in
  entries (viewStatesByPeerId s) !! 1%Z = Some {| viewState := a; peerId := 1%Z |} /\
  apply s (updateViewState 1%Z a) = s /\
  apply s (updateViewState 1%Z b) ≠ s.
Proof.
  intros a b s.
  assert (Hs : entries (viewStatesByPeerId s) !! 1%Z
               = Some {| viewState := a; peerId := 1%Z |}) by (vm_compute; reflexivity).
  split; [exact Hs|]. split.
  - destruct (comparison_is_text_equality (number := Z) s 1%Z _ a Hs) as [[_ Ha] _].
    apply Ha. reflexivity.
  - intros Hsame.
    destruct (comparison_is_text_equality (number := Z) s 1%Z _ b Hs) as [[Hb _] _].
    apply Hb in Hsame. vm_compute in Hsame. discriminate Hsame.
Defined.

Lemma apply_typed_change_is_stored_witness :
  let a := Some {| activeUri := "a.drawio"; currentCursor := None; selectedCellIds := ["2"] |} in
  let b := Some {| activeUri := "a.drawio"; currentCursor := None; selectedCellIds := ["2"; "3"] |} in
  let s := apply new (updateViewState 1%Z (ViewState_js a)) in
  entries (viewStatesByPeerId s) !! 1%Z = Some (newVal 1%Z (ViewState_js a)) /\
  a ≫= currentCursor = b ≫= currentCursor /\
  a ≠ b /\
  entries (viewStatesByPeerId (apply s (updateViewState 1%Z (ViewState_js b)))) !! 1%Z
  = Some (newVal 1%Z (ViewState_js b)).
Proof.
  intros a b s.
  assert (Hs : entries (viewStatesByPeerId s) !! 1%Z = Some (newVal 1%Z (ViewState_js a)))
    by (vm_compute; reflexivity).
  assert (Hab : a ≠ b) by discriminate.
  split; [exact Hs|]. split; [reflexivity|]. split; [exact Hab|].
  rewrite (apply_typed_change_is_stored (number := Z) s 1%Z a b Hs eq_refl Hab).
  simpl. apply lookup_insert_eq.
Defined.

Lemma getVertices_rejected_witness :
  let send := fun (a : JsObject Z) (sent : list (JsObject Z)) =>
                (Throw (A := JsObject Z) (Error "disposed"), sent ++ [a]) in
  let this := {| base := []; emitted := [] |} in
  send [("action", JString "getVertices")] (base this)
  = (Throw (Error "disposed"), [[("action", JString "getVertices")]]) /\
  getVertices send this
  = (Throw (Error "disposed"),
     {| base := [[("action", JString "getVertices")]]; emitted := [] |}).
Proof.
  intros send this. split; [reflexivity|].
  apply (getVertices_rejected send this (Error "disposed")
           [[("action", JString "getVertices")]]).
  reflexivity.
Defined.

Lemma addKnownPlugin_other_key_witness :
  let this := {| _knownPlugins :=
                   Some [{| pluginId := "p"; fingerprint := "f2"; allowed := false |}] |} in
  ("p", "f2") ≠ ("p", "f1") /\
  isPluginAllowed (addKnownPlugin this "p" "f1" true) "p" "f2" = Some false.
Proof.
  intros this. split; [discriminate|].
  rewrite (addKnownPlugin_other_key this "p" "f1" true "p" "f2"); [reflexivity|].
  discriminate.
Defined.

Lemma serializer_injective_witness :
  let val := [("a", "1")] in
  NoDup val.*1 /\
  serializer (number := Z) mapObjectValues false val
  = serializer mapObjectValues false val /\
  val = val.
Proof.
  intros val. assert (Hnd : NoDup val.*1) by (subst val; compute_done).
  split; [exact Hnd|]. split; [reflexivity|].
  apply (serializer_injective (number := Z) mapObjectValues val val Hnd Hnd). reflexivity.
Defined.

Lemma deserialize_missing_witness :
  typeof (JUndefined (number := Z)) ≠ TObject /\
  ToBoolean (JUndefined (number := Z)) = false /\
  deserialize mapObjectValues (JUndefined (number := Z)) = Throw SyntaxError.
Proof.
  split; [discriminate|]. split; [reflexivity|].
  apply (deserialize_missing (number := Z) mapObjectValues JUndefined);
    [discriminate | reflexivity].
Defined.

Lemma localStorage_development_roundtrip_witness :
  let val := [("greeting", "hello"); ("path", "C:\tmp")] in
  serializer (number := Z) mapObjectValues true val = Normal (Record_js val) /\
  deserialize (number := Z) mapObjectValues (Record_js val) = Normal (Record_js val).
Proof.
  intros val.
  apply (localStorage_development_roundtrip (number := Z) mapObjectValues val).
  - reflexivity.
  - subst val. repeat constructor; by exists SyntaxError.
Defined.

Lemma customLibraries_resolved_witness :
  let gw := fun _ : Uri => None in
  let rf := fun _ : string => Throw (A := string) TypeError in
  let this :=
    {| uri := "/tmp/b.drawio"; _plugins := None;
       _customLibraries :=
         Some [{| source := SourceUrl "https://example.org/lib.xml";
                  libName := "remote"; entryId := "r" |};
               {| source := SourceJson "[]"; libName := "inline"; entryId := "i" |}] |} in
  customLibraries (number := Z) gw rf rf this
  = Normal [{| data_libName := "remote"; data_entryId := "r";
               data := KindUrl "https://example.org/lib.xml" |};
            {| data_libName := "inline"; data_entryId := "i";
               data := KindValue (JArray []) |}] /\
  length (VsCodeSetting_get [] (_customLibraries this)) = 2.
Proof.
  intros gw rf this.
  assert (Hrun : customLibraries (number := Z) gw rf rf this
                 = Normal [{| data_libName := "remote"; data_entryId := "r";
                              data := KindUrl "https://example.org/lib.xml" |};
                           {| data_libName := "inline"; data_entryId := "i";
                              data := KindValue (JArray []) |}])
    by (vm_compute; reflexivity).
  split; [exact Hrun|].
  pose proof (customLibraries_resolved (number := Z) gw rf rf this _ Hrun) as Hall.
  apply Forall2_length in Hall. rewrite Hall. reflexivity.
Defined.

End FurtherRuns.
